(** * MipsISelDAGToDAG: the MIPS DAG-to-DAG instruction selector

    A shallow embedding of [lib/Target/Mips/MipsISelDAGToDAG.cpp]:
    the address-mode matcher [SelectAddr], the node selector [Select]
    and the per-block driver [InstructionSelectBasicBlock], followed by
    the properties the design document states about them. *)

From Stdlib Require Import ZArith List String Bool Lia.
Import ListNotations.
Local Open Scope Z_scope.

(* ================================================================== *)
(** ** Enumerations declared by headers the selector includes          *)
(* ================================================================== *)

(** [MVT::ValueType]: only [i32] and [Flag] are named by the selector. *)
Module MVT.
Inductive ValueType : Type :=
| Other | i1 | i8 | i16 | i32 | i64 | f32 | f64 | Flag.
End MVT.

(** [ISD::NodeType]: the enumerators the selector names.  Their numeric
    values come from [SelectionDAGNodes.h], which is not part of this
    file, so they are taken as parameters. *)
Module ISD.
Class NodeType : Type := {
  Constant : Z;
  TargetConstant : Z;
  FrameIndex : Z;
  TargetFrameIndex : Z;
  TargetGlobalAddress : Z;
  TargetExternalSymbol : Z;
  ADD : Z;
  SDIV : Z;
  UDIV : Z;
  SREM : Z;
  UREM : Z;
  MULHU : Z;
  MULHS : Z;
  BUILTIN_OP_END : Z
}.

(** All the named enumerators, in the order of the class fields. *)
Definition enumerators `{NT : NodeType} : list Z :=
  [Constant; TargetConstant; FrameIndex; TargetFrameIndex;
   TargetGlobalAddress; TargetExternalSymbol;
   ADD; SDIV; UDIV; SREM; UREM; MULHU; MULHS].

(** What a C++ [enum] whose last enumerator is [BUILTIN_OP_END]
    guarantees: the enumerators are pairwise different and all lie
    below [BUILTIN_OP_END]. *)
Class Enum `{NT : NodeType} : Prop := {
  enum_distinct : NoDup enumerators;
  enum_builtin  : Forall (fun o => 0 <= o < BUILTIN_OP_END) enumerators
}.
End ISD.

(** [Mips::] machine instruction opcodes (from [MipsGenInstrNames.inc]). *)
Module Mips.
Class Opcode : Type := {
  MULT : Z;
  MULTu : Z;
  DIV : Z;
  DIVu : Z;
  MFHI : Z;
  MFLO : Z
}.
End Mips.

(** [MipsISD::FIRST_NUMBER] (from [MipsISelLowering.h]). *)
Module MipsISD.
Class NodeType : Type := { FIRST_NUMBER : Z }.
End MipsISD.

(* ================================================================== *)
(** ** DAG nodes                                                        *)
(* ================================================================== *)

(** The data a node subclass carries besides opcode, operands and
    result types: [ConstantSDNode::Value] (a [uint64_t]),
    [FrameIndexSDNode::FI], [RegisterSDNode::Reg], or a symbol. *)
Inductive Payload : Type :=
| NoPayload
| ConstantVal (Value : Z)
| FrameIdx (FI : Z)
| RegisterNo (Reg : Z)
| Symbol (Name : string).

(** [SDNode] and [SDOperand] (a node together with a result number).
    Nodes are immutable once built, so a node is represented by the
    term that describes it. *)
Inductive SDNode : Type :=
| MkSDNode (NodeType : Z) (Values : list MVT.ValueType)
           (OperandList : list SDOperand) (Data : Payload)
with SDOperand : Type :=
| MkSDOperand (Val : SDNode) (ResNo : nat).

Definition getNodeOpcode (n : SDNode) : Z :=
  match n with MkSDNode o _ _ _ => o end.
Definition getValueTypes (n : SDNode) : list MVT.ValueType :=
  match n with MkSDNode _ vts _ _ => vts end.
Definition getOperands (n : SDNode) : list SDOperand :=
  match n with MkSDNode _ _ ops _ => ops end.
Definition getData (n : SDNode) : Payload :=
  match n with MkSDNode _ _ _ d => d end.

Definition Val (o : SDOperand) : SDNode :=
  match o with MkSDOperand n _ => n end.
Definition ResNo (o : SDOperand) : nat :=
  match o with MkSDOperand _ r => r end.

(** [SDOperand::getOpcode]. *)
Definition getOpcode (o : SDOperand) : Z := getNodeOpcode (Val o).

(** [SDNode::getOperand(Num)]: asserts [Num < NumOperands]; [None] is
    the failed assertion. *)
Definition getOperand (n : SDNode) (Num : nat) : option SDOperand :=
  nth_error (getOperands n) Num.

Section Nodes.
Context `{NT : ISD.NodeType}.

(** [dyn_cast<FrameIndexSDNode>]: [FrameIndexSDNode::classof] accepts
    the opcodes [FrameIndex] and [TargetFrameIndex]. *)
Definition isa_FrameIndexSDNode (o : SDOperand) : bool :=
  (getOpcode o =? ISD.FrameIndex) || (getOpcode o =? ISD.TargetFrameIndex).

Definition dyn_cast_FrameIndexSDNode (o : SDOperand) : option SDNode :=
  if isa_FrameIndexSDNode o then Some (Val o) else None.

(** [dyn_cast<ConstantSDNode>]: [ConstantSDNode::classof] accepts the
    opcodes [Constant] and [TargetConstant]. *)
Definition isa_ConstantSDNode (o : SDOperand) : bool :=
  (getOpcode o =? ISD.Constant) || (getOpcode o =? ISD.TargetConstant).

Definition dyn_cast_ConstantSDNode (o : SDOperand) : option SDNode :=
  if isa_ConstantSDNode o then Some (Val o) else None.

(** [FrameIndexSDNode::getIndex] and [ConstantSDNode::getValue]; they
    are defined only on nodes that carry the field. *)
Definition getIndex (FIN : SDNode) : option Z :=
  match getData FIN with FrameIdx k => Some k | _ => None end.

Definition getValue (CN : SDNode) : option Z :=
  match getData CN with ConstantVal v => Some v | _ => None end.

(** Modelled from the spec: [SelectionDAG::getTargetFrameIndex] lives
    in the code generator's library, outside this file.  Following the
    data model (a node has an opcode, ordered operands, declared result
    types and an optional payload) it returns the frame-slot reference
    [FI] in its target-concrete form, of type [VT]. *)
Definition getTargetFrameIndex (FI : Z) (VT : MVT.ValueType) : SDOperand :=
  MkSDOperand (MkSDNode ISD.TargetFrameIndex [VT] [] (FrameIdx FI)) 0.

(** Modelled from the spec: [SelectionDAG::getTargetConstant] lives in
    the code generator's library; it returns the target-concrete
    constant [V] of type [VT]. *)
Definition getTargetConstant (V : Z) (VT : MVT.ValueType) : SDOperand :=
  MkSDOperand (MkSDNode ISD.TargetConstant [VT] [] (ConstantVal V)) 0.

(** Modelled from the spec: the node [SelectionDAG::getTargetNode]
    builds (library code): the machine instruction [Opc] with the single
    result type [VT] and the operands [Ops].  A machine node for
    instruction [Opc] carries the opcode [BUILTIN_OP_END + Opc]. *)
Definition TargetNode (Opc : Z) (VT : MVT.ValueType)
           (Ops : list SDOperand) : SDNode :=
  MkSDNode (ISD.BUILTIN_OP_END + Opc) [VT] Ops NoPayload.

(** [SDNode::isTargetOpcode] and [SDNode::getTargetOpcode]. *)
Definition isTargetOpcode (n : SDNode) : bool :=
  ISD.BUILTIN_OP_END <=? getNodeOpcode n.
Definition getTargetOpcode (n : SDNode) : Z :=
  getNodeOpcode n - ISD.BUILTIN_OP_END.

(** Two's-complement reading of the low [w] bits of [v]. *)
Definition sext (w : Z) (v : Z) : Z :=
  let m := v mod 2 ^ w in
  if m <? 2 ^ (w - 1) then m else m - 2 ^ w.

(** Modelled from the spec: [Predicate_immSExt16] comes from the
    generated [MipsGenDAGISel.inc].  The spec's rule 3 asks that the
    constant fit the signed 16-bit offset-immediate range; the constant
    is read as a signed number of the width of the node's result type
    (32 bits for [i32], 64 bits otherwise). *)
Definition Predicate_immSExt16 (CN : SDNode) : option bool :=
  match getValue CN with
  | Some v =>
      let sv := match getValueTypes CN with
                | MVT.i32 :: _ => sext 32 v
                | _ => sext 64 v
                end in
      Some ((- 2 ^ 15 <=? sv) && (sv <? 2 ^ 15))
  | None => None
  end.

(* ================================================================ *)
(** ** SelectAddr                                                    *)
(* ================================================================ *)

(** The outcome of a call: the returned [bool] and the contents of the
    two reference parameters after the call, by position. *)
Record AddrResult : Type := MkAddrResult {
  ret  : bool;
  arg3 : SDOperand;   (* third parameter *)
  arg4 : SDOperand    (* fourth parameter *)
}.

(** The definition (line 129) names them [Offset] then [Base]. *)
Definition Offset (r : AddrResult) : SDOperand := arg3 r.
Definition Base (r : AddrResult) : SDOperand := arg4 r.

(** The declaration in the class (lines 83-84) names them [Base] then
    [Offset]. *)
Definition declared_Base (r : AddrResult) : SDOperand := arg3 r.
Definition declared_Offset (r : AddrResult) : SDOperand := arg4 r.

(** [SelectAddr(Op, Addr, Offset, Base)].  [Offset0] and [Base0] are
    what the caller's variables hold on entry; [None] is a failed
    library assertion (an operand or field that is not there). *)
Definition SelectAddr (Op Addr Offset0 Base0 : SDOperand)
  : option AddrResult :=
  match dyn_cast_FrameIndexSDNode Addr with
  | Some FIN =>
      (* if Address is FI, get the TargetFrameIndex. *)
      match getIndex FIN with
      | Some k =>
          Some {| ret := true;
                  (* Offset *) arg3 := getTargetConstant 0 MVT.i32;
                  (* Base *)   arg4 := getTargetFrameIndex k MVT.i32 |}
      | None => None
      end
  | None =>
      (* TargetExternalSymbol and TargetGlobalAddress are lowered and
         their addresses go into registers, so they should not be
         touched here. *)
      if (getOpcode Addr =? ISD.TargetExternalSymbol)
         || (getOpcode Addr =? ISD.TargetGlobalAddress)
      then Some {| ret := false; arg3 := Offset0; arg4 := Base0 |}
      else
        (* lines 166-168 *)
        let default :=
          Some {| ret := true;
                  (* Offset *) arg3 := getTargetConstant 0 MVT.i32;
                  (* Base *)   arg4 := Addr |} in
        if getOpcode Addr =? ISD.ADD then
          (* Operand is a result from an ADD. *)
          match getOperand (Val Addr) 1 with
          | None => None
          | Some Op1 =>
              match dyn_cast_ConstantSDNode Op1 with
              | Some CN =>
                  match Predicate_immSExt16 CN with
                  | None => None
                  | Some true =>
                      match getOperand (Val Addr) 0 with
                      | None => None
                      | Some Op0 =>
                          (* If the first operand is a FI, get the
                             TargetFI Node *)
                          match dyn_cast_FrameIndexSDNode Op0 with
                          | Some FIN =>
                              match getIndex FIN, getValue CN with
                              | Some k, Some v =>
                                  Some {| ret := true;
                                          (* Offset *)
                                          arg3 := getTargetConstant v MVT.i32;
                                          (* Base *)
                                          arg4 := getTargetFrameIndex k MVT.i32 |}
                              | _, _ => None
                              end
                          | None =>
                              match getValue CN with
                              | Some v =>
                                  Some {| ret := true;
                                          (* Offset *)
                                          arg3 := getTargetConstant v MVT.i32;
                                          (* Base *)
                                          arg4 := Op0 |}
                              | None => None
                              end
                          end
                      end
                  | Some false => default
                  end
              | None => default
              end
          end
        else default
  end.
End Nodes.

(* ================================================================== *)
(** ** The selector's state and its monad                               *)
(* ================================================================== *)

(** What the debug stream [DOUT] receives. *)
Inductive TraceItem : Type :=
| TText (s : string)          (* a string literal *)
| TSpaces (n : Z)             (* [std::string(n, ' ')] *)
| TDumpNode (n : SDNode)      (* [Node->dump(CurDAG)] *)
| TDumpBB.                    (* [BB->dump()] *)

(** The calls [Select] makes into the code generator's library, in
    program order: [AddToISelQueue(Op)] and
    [CurDAG->getTargetNode(Opc, VT, Ops...)]. *)
Inductive Call : Type :=
| CallAddToISelQueue (Op : SDOperand)
| CallGetTargetNode (Opc : Z) (VT : MVT.ValueType) (Ops : list SDOperand).

(** The state [Select] works on: the member [Indent] (an [unsigned],
    present in debug builds), the debug stream and the log of library
    calls. *)
Record ISelState : Type := MkISelState {
  Indent : Z;
  DOUT : list TraceItem;
  Calls : list Call
}.

(** Arithmetic on [unsigned]. *)
Definition wrap32 (z : Z) : Z := z mod 2 ^ 32.

(** State with failure: [None] is a failed library assertion. *)
Definition ISel (A : Type) : Type := ISelState -> option (A * ISelState).

Definition Ret {A : Type} (a : A) : ISel A := fun s => Some (a, s).

Definition Bind {A B : Type} (m : ISel A) (k : A -> ISel B) : ISel B :=
  fun s => match m s with
           | Some (a, s') => k a s'
           | None => None
           end.

Definition Assert {A : Type} (o : option A) : ISel A :=
  fun s => match o with Some a => Some (a, s) | None => None end.

Declare Scope isel_scope.
Delimit Scope isel_scope with isel.
Notation "x <- m ;; k" := (Bind m (fun x => k))
  (at level 61, m at next level, right associativity) : isel_scope.
Notation "m ;; k" := (Bind m (fun _ => k))
  (at level 61, right associativity) : isel_scope.

(** [DOUT << ...]. *)
Definition dout (items : list TraceItem) : ISel unit :=
  fun s => Some (tt, {| Indent := Indent s;
                        DOUT := DOUT s ++ items;
                        Calls := Calls s |}).

Definition getIndent : ISel Z := fun s => Some (Indent s, s).

Definition setIndent (i : Z) : ISel unit :=
  fun s => Some (tt, {| Indent := i; DOUT := DOUT s; Calls := Calls s |}).

Definition call (c : Call) : ISel unit :=
  fun s => Some (tt, {| Indent := Indent s;
                        DOUT := DOUT s;
                        Calls := Calls s ++ [c] |}).

(** Modelled from the spec: [AddToISelQueue] comes from the generated
    [MipsGenDAGISel.inc]; the legalization queue is an external
    bookkeeping sink, so a registration is recorded as a call. *)
Definition AddToISelQueue (Op : SDOperand) : ISel unit :=
  call (CallAddToISelQueue Op).

(** [getI32Imm(Imm)]: a target constant with the specified value, of
    type i32.  The parameter is an [unsigned], so the argument of a call
    is converted modulo 2^32 before it is widened to the [uint64_t] that
    [getTargetConstant] takes. *)
Definition getI32Imm `{NT : ISD.NodeType} (Imm : Z) : SDOperand :=
  getTargetConstant (wrap32 Imm) MVT.i32.

Section Selector.
Context `{NT : ISD.NodeType} `{MO : Mips.Opcode} `{MN : MipsISD.NodeType}.

(** [CurDAG->getTargetNode(Opc, VT, Ops...)]: the call is recorded and
    the new machine node returned. *)
Definition getTargetNode (Opc : Z) (VT : MVT.ValueType)
           (Ops : list SDOperand) : ISel SDNode :=
  (call (CallGetTargetNode Opc VT Ops) ;; Ret (TargetNode Opc VT Ops))%isel.

(** [SelectCode] is the generated pattern matcher of
    [MipsGenDAGISel.inc]; [None] is [NULL].  It is a total function of
    the node and the state (spec, section 6). *)
Variable SelectCode : SDOperand -> ISelState -> option SDNode * ISelState.

(** [true] when the file is compiled with [NDEBUG] defined. *)
Variable NDEBUG : bool.

(** A block under [#ifndef NDEBUG]. *)
Definition debug (m : ISel unit) : ISel unit :=
  if NDEBUG then Ret tt else m.

(** The opcodes with a hand-written lowering. *)
Definition isSpecialOp (Opcode : Z) : bool :=
  (Opcode =? ISD.MULHS) || (Opcode =? ISD.MULHU)
  || (Opcode =? ISD.SDIV) || (Opcode =? ISD.UDIV)
  || (Opcode =? ISD.SREM) || (Opcode =? ISD.UREM).

(** The test of line 188. *)
Definition isCustomNode (Opcode : Z) : bool :=
  (ISD.BUILTIN_OP_END <=? Opcode) && (Opcode <? MipsISD.FIRST_NUMBER).

(** [MipsDAGToDAGISel::Select]; the result [None] is [NULL].  The last
    debug block dumps [N.Val] when [ResNode] is [NULL] or [N.Val], and
    [ResNode] otherwise: in both cases of the second test the node
    dumped is [ResNode]. *)
Definition Select (N : SDOperand) : ISel (option SDNode) :=
  (let Node := Val N in
   let Opcode := getNodeOpcode Node in
   (* Dump information about the Node being selected *)
   debug (i <- getIndent ;;
          dout [TSpaces i; TText "Selecting: "; TDumpNode Node; TText "\n"] ;;
          setIndent (wrap32 (i + 2))) ;;
   (* If we have a custom node, we already have selected! *)
   if isCustomNode Opcode then
     debug (i <- getIndent ;;
            dout [TSpaces (wrap32 (i - 2)); TText "== "; TDumpNode Node;
                  TText "\n"] ;;
            setIndent (wrap32 (i - 2))) ;;
     Ret None
   else if (Opcode =? ISD.MULHS) || (Opcode =? ISD.MULHU) then
     (* Special Mul operations *)
     MulOp1 <- Assert (getOperand Node 0) ;;
     MulOp2 <- Assert (getOperand Node 1) ;;
     AddToISelQueue MulOp1 ;;
     AddToISelQueue MulOp2 ;;
     let MulOp := if Opcode =? ISD.MULHU then Mips.MULTu else Mips.MULT in
     MulNode <- getTargetNode MulOp MVT.Flag [MulOp1; MulOp2] ;;
     let MFInFlag := MkSDOperand MulNode 0 in
     R <- getTargetNode Mips.MFHI MVT.i32 [MFInFlag] ;;
     Ret (Some R)
   else if (Opcode =? ISD.SDIV) || (Opcode =? ISD.UDIV) then
     (* Div operations *)
     DivOp1 <- Assert (getOperand Node 0) ;;
     DivOp2 <- Assert (getOperand Node 1) ;;
     AddToISelQueue DivOp1 ;;
     AddToISelQueue DivOp2 ;;
     let DivOp := if Opcode =? ISD.SDIV then Mips.DIV else Mips.DIVu in
     DivNode <- getTargetNode DivOp MVT.Flag [DivOp1; DivOp2] ;;
     let MFInFlag := MkSDOperand DivNode 0 in
     R <- getTargetNode Mips.MFLO MVT.i32 [MFInFlag] ;;
     Ret (Some R)
   else if (Opcode =? ISD.SREM) || (Opcode =? ISD.UREM) then
     (* Rem operations *)
     RemOp1 <- Assert (getOperand Node 0) ;;
     RemOp2 <- Assert (getOperand Node 1) ;;
     AddToISelQueue RemOp1 ;;
     AddToISelQueue RemOp2 ;;
     let RemOp := if Opcode =? ISD.SREM then Mips.DIV else Mips.DIVu in
     RemNode <- getTargetNode RemOp MVT.Flag [RemOp1; RemOp2] ;;
     let MFInFlag := MkSDOperand RemNode 0 in
     R <- getTargetNode Mips.MFHI MVT.i32 [MFInFlag] ;;
     Ret (Some R)
   else
     (* Select the default instruction *)
     ResNode <- (fun s => Some (SelectCode N s)) ;;
     debug (i <- getIndent ;;
            dout [TSpaces (wrap32 (i - 2)); TText "=> ";
                  TDumpNode (match ResNode with
                             | None => Val N
                             | Some R => R
                             end);
                  TText "\n"] ;;
            setIndent (wrap32 (i - 2))) ;;
     Ret ResNode)%isel.

End Selector.

(* ================================================================== *)
(** ** InstructionSelectBasicBlock                                      *)
(* ================================================================== *)

(** [SelectionDAG]: the root and the nodes the DAG owns. *)
Record SelectionDAG : Type := MkSelectionDAG {
  Root : SDOperand;
  AllNodes : list SDNode
}.

Definition getRoot (SD : SelectionDAG) : SDOperand := Root SD.

Definition setRoot (N : SDOperand) (SD : SelectionDAG) : SelectionDAG :=
  {| Root := N; AllNodes := AllNodes SD |}.

(** What the driver works on: the DAG [SD], the machine basic block
    [BB] that receives the code, and the selector's own state. *)
Record PassState (MachineBasicBlock : Type) : Type := MkPassState {
  SD : SelectionDAG;
  BB : MachineBasicBlock;
  ISelSt : ISelState
}.
Arguments MkPassState {MachineBasicBlock}.
Arguments SD {MachineBasicBlock}.
Arguments BB {MachineBasicBlock}.
Arguments ISelSt {MachineBasicBlock}.

Section Driver.
(** The collaborators of the driver, all defined outside this file:
    [SelectRoot] (generated; it runs [Select] over the queue and returns
    the new root), [SelectionDAG::RemoveDeadNodes] and
    [ScheduleAndEmitDAG]. *)
Variable MachineBasicBlock : Type.
Variable SelectRoot :
  SDOperand -> SelectionDAG * ISelState -> SDOperand * (SelectionDAG * ISelState).
Variable RemoveDeadNodes : SelectionDAG -> SelectionDAG.
Variable ScheduleAndEmitDAG :
  SelectionDAG -> MachineBasicBlock -> MachineBasicBlock.
Variable NDEBUG : bool.

(** The state of the selector after the first debug block (lines
    106-111). *)
Definition trace_begin (d : ISelState) : ISelState :=
  if NDEBUG then d
  else {| Indent := 0;
          DOUT := DOUT d ++ [TDumpBB;
                             TText "===== Instruction selection begins:\n"];
          Calls := Calls d |}.

(** The state of the selector after the second debug block (lines
    116-118). *)
Definition trace_end (d : ISelState) : ISelState :=
  if NDEBUG then d
  else {| Indent := Indent d;
          DOUT := DOUT d ++ [TText "===== Instruction selection ends:\n"];
          Calls := Calls d |}.

(** [MipsDAGToDAGISel::InstructionSelectBasicBlock(SD)]. *)
Definition InstructionSelectBasicBlock (st : PassState MachineBasicBlock)
  : PassState MachineBasicBlock :=
  let d1 := trace_begin (ISelSt st) in
  (* Select target instructions for the DAG. *)
  let '(NewRoot, (SD1, d2)) := SelectRoot (getRoot (SD st)) (SD st, d1) in
  let SD2 := setRoot NewRoot SD1 in
  let d3 := trace_end d2 in
  let SD3 := RemoveDeadNodes SD2 in
  (* Emit machine code to BB. *)
  let BB1 := ScheduleAndEmitDAG SD3 (BB st) in
  {| SD := SD3; BB := BB1; ISelSt := d3 |}.

End Driver.

(* ================================================================== *)
(** ** A concrete numbering, to run the definitions                     *)
(* ================================================================== *)

(** One numbering of the enumerators that satisfies [ISD.Enum]; the
    theorems below hold for every such numbering. *)
Module Sample.
Definition isd : ISD.NodeType :=
  {| ISD.Constant := 7; ISD.TargetConstant := 20;
     ISD.FrameIndex := 11; ISD.TargetFrameIndex := 24;
     ISD.TargetGlobalAddress := 22; ISD.TargetExternalSymbol := 27;
     ISD.ADD := 40; ISD.SDIV := 43; ISD.UDIV := 44;
     ISD.SREM := 45; ISD.UREM := 46; ISD.MULHU := 60; ISD.MULHS := 61;
     ISD.BUILTIN_OP_END := 150 |}.

Definition mips : Mips.Opcode :=
  {| Mips.MULT := 50; Mips.MULTu := 51; Mips.DIV := 30; Mips.DIVu := 31;
     Mips.MFHI := 46; Mips.MFLO := 47 |}.

Definition mipsisd : MipsISD.NodeType :=
  {| MipsISD.FIRST_NUMBER := 150 + 90 |}.

(** A register leaf; the number 6 stands for a generic opcode that the
    selector does not name. *)
Definition reg (n : Z) : SDOperand :=
  MkSDOperand (MkSDNode 6 [MVT.i32] [] (RegisterNo n)) 0.

Definition frameIndex (k : Z) : SDOperand :=
  MkSDOperand (MkSDNode (@ISD.FrameIndex isd) [MVT.i32] [] (FrameIdx k)) 0.

Definition constant (v : Z) : SDOperand :=
  MkSDOperand (MkSDNode (@ISD.Constant isd) [MVT.i32] [] (ConstantVal v)) 0.

Definition binop (opc : Z) (a b : SDOperand) : SDOperand :=
  MkSDOperand (MkSDNode opc [MVT.i32] [a; b] NoPayload) 0.

Definition add (a b : SDOperand) : SDOperand := binop (@ISD.ADD isd) a b.

Definition targetGlobalAddress (name : string) : SDOperand :=
  MkSDOperand
    (MkSDNode (@ISD.TargetGlobalAddress isd) [MVT.i32] [] (Symbol name)) 0.

(** A pattern matcher that never matches, and the empty state. *)
Definition noMatch (N : SDOperand) (s : ISelState)
  : option SDNode * ISelState := (None, s).

Definition s0 : ISelState := {| Indent := 0; DOUT := []; Calls := [] |}.
End Sample.

(* ================================================================== *)
(** ** Vocabulary of the statements                                     *)
(* ================================================================== *)

Section Vocabulary.
Context `{NT : ISD.NodeType}.

(** A node agrees with its class: a frame-index node carries an index,
    a constant node carries a value, an [ADD] has two operands. *)
Definition node_ok (o : SDOperand) : bool :=
  implb (isa_FrameIndexSDNode o)
        (match getData (Val o) with FrameIdx _ => true | _ => false end)
  && implb (isa_ConstantSDNode o)
           (match getData (Val o) with ConstantVal _ => true | _ => false end)
  && implb (getOpcode o =? ISD.ADD)
           (Nat.eqb (List.length (getOperands (Val o))) 2).

(** The precondition of the spec's section 7 for an address: the node
    and its operands are well formed. *)
Definition wf_addr (Addr : SDOperand) : bool :=
  node_ok Addr && forallb node_ok (getOperands (Val Addr)).

(** The rows of the spec's special-op table:
    generic opcode, producer instruction, consumer instruction. *)
Inductive SpecialOp `{MO : Mips.Opcode} : Z -> Z -> Z -> Prop :=
| Sp_MULHS : SpecialOp ISD.MULHS Mips.MULT Mips.MFHI
| Sp_MULHU : SpecialOp ISD.MULHU Mips.MULTu Mips.MFHI
| Sp_SDIV : SpecialOp ISD.SDIV Mips.DIV Mips.MFLO
| Sp_UDIV : SpecialOp ISD.UDIV Mips.DIVu Mips.MFLO
| Sp_SREM : SpecialOp ISD.SREM Mips.DIV Mips.MFHI
| Sp_UREM : SpecialOp ISD.UREM Mips.DIVu Mips.MFHI.

(** The two-instruction chain for producer [prod] and consumer [cons]
    over the operands [A] and [B]. *)
Definition chain (prod cons : Z) (A B : SDOperand) : SDNode :=
  TargetNode cons MVT.i32 [MkSDOperand (TargetNode prod MVT.Flag [A; B]) 0].

(** The library calls of one special-op lowering, in program order. *)
Definition lowering_calls (prod cons : Z) (A B : SDOperand) : list Call :=
  [CallAddToISelQueue A; CallAddToISelQueue B;
   CallGetTargetNode prod MVT.Flag [A; B];
   CallGetTargetNode cons MVT.i32
     [MkSDOperand (TargetNode prod MVT.Flag [A; B]) 0]].

(** In a sequence of calls, every operand among [Ops] that a
    [getTargetNode] call consumes was registered with the queue by an
    earlier call. *)
Definition queued_before_use (Ops : list SDOperand) (calls : list Call)
  : Prop :=
  forall pre Opc VT Args post Op,
    calls = pre ++ CallGetTargetNode Opc VT Args :: post ->
    In Op Args -> In Op Ops ->
    In (CallAddToISelQueue Op) pre.

(** The state after the first debug block of [Select] (lines 180-185). *)
Definition entered (NDEBUG : bool) (N : SDOperand) (s : ISelState)
  : ISelState :=
  if NDEBUG then s
  else {| Indent := wrap32 (Indent s + 2);
          DOUT := DOUT s ++ [TSpaces (Indent s); TText "Selecting: ";
                             TDumpNode (Val N); TText "\n"];
          Calls := Calls s |}.

Definition add_calls (cs : list Call) (s : ISelState) : ISelState :=
  {| Indent := Indent s; DOUT := DOUT s; Calls := Calls s ++ cs |}.

(** [Select], run on [N] in state [s], returns the consumer of the
    chain [prod]/[cons] over [A] and [B], and the library calls it makes
    are exactly those of that one lowering. *)
Definition lowers_to `{MO : Mips.Opcode} `{MN : MipsISD.NodeType}
           (SelectCode : SDOperand -> ISelState -> option SDNode * ISelState)
           (NDEBUG : bool) (N : SDOperand) (s : ISelState)
           (prod cons : Z) (A B : SDOperand) : Prop :=
  exists s',
    Select SelectCode NDEBUG N s
    = Some (Some (TargetNode cons MVT.i32
                    [MkSDOperand (TargetNode prod MVT.Flag [A; B]) 0]), s')
    /\ Calls s' = Calls s ++ lowering_calls prod cons A B.

(** The five ways a call [SelectAddr(Op, Addr, Offset, Base)] ends, with
    [O0] and [B0] the contents of the two reference parameters on
    entry. *)
Inductive AddrOutcome (Addr O0 B0 : SDOperand) : AddrResult -> Prop :=
| Out_frame_index (k : Z) :
    isa_FrameIndexSDNode Addr = true ->
    getIndex (Val Addr) = Some k ->
    AddrOutcome Addr O0 B0
      {| ret := true;
         arg3 := getTargetConstant 0 MVT.i32;
         arg4 := getTargetFrameIndex k MVT.i32 |}
| Out_symbolic :
    isa_FrameIndexSDNode Addr = false ->
    getOpcode Addr = ISD.TargetExternalSymbol
    \/ getOpcode Addr = ISD.TargetGlobalAddress ->
    AddrOutcome Addr O0 B0 {| ret := false; arg3 := O0; arg4 := B0 |}
| Out_folded_frame_index (Op0 Op1 : SDOperand) (v k : Z) :
    isa_FrameIndexSDNode Addr = false ->
    getOpcode Addr = ISD.ADD ->
    getOperand (Val Addr) 0 = Some Op0 ->
    getOperand (Val Addr) 1 = Some Op1 ->
    isa_ConstantSDNode Op1 = true ->
    getValue (Val Op1) = Some v ->
    Predicate_immSExt16 (Val Op1) = Some true ->
    isa_FrameIndexSDNode Op0 = true ->
    getIndex (Val Op0) = Some k ->
    AddrOutcome Addr O0 B0
      {| ret := true;
         arg3 := getTargetConstant v MVT.i32;
         arg4 := getTargetFrameIndex k MVT.i32 |}
| Out_folded (Op0 Op1 : SDOperand) (v : Z) :
    isa_FrameIndexSDNode Addr = false ->
    getOpcode Addr = ISD.ADD ->
    getOperand (Val Addr) 0 = Some Op0 ->
    getOperand (Val Addr) 1 = Some Op1 ->
    isa_ConstantSDNode Op1 = true ->
    getValue (Val Op1) = Some v ->
    Predicate_immSExt16 (Val Op1) = Some true ->
    isa_FrameIndexSDNode Op0 = false ->
    AddrOutcome Addr O0 B0
      {| ret := true;
         arg3 := getTargetConstant v MVT.i32;
         arg4 := Op0 |}
| Out_default :
    isa_FrameIndexSDNode Addr = false ->
    getOpcode Addr <> ISD.TargetExternalSymbol ->
    getOpcode Addr <> ISD.TargetGlobalAddress ->
    AddrOutcome Addr O0 B0
      {| ret := true;
         arg3 := getTargetConstant 0 MVT.i32;
         arg4 := Addr |}.
End Vocabulary.

(** [SelectRoot] gives the same root and the same DAG whatever the
    debug state it is run in. *)
Definition diag_independent
  (SelectRoot : SDOperand -> SelectionDAG * ISelState
                -> SDOperand * (SelectionDAG * ISelState)) : Prop :=
  forall R G d d',
    fst (SelectRoot R (G, d)) = fst (SelectRoot R (G, d'))
    /\ fst (snd (SelectRoot R (G, d))) = fst (snd (SelectRoot R (G, d'))).

Module Sample2.
Import Sample.
(** A [SelectRoot] that selects the root node alone. *)
Definition selectRoot (R : SDOperand) (w : SelectionDAG * ISelState)
  : SDOperand * (SelectionDAG * ISelState) :=
  match @Select isd mips mipsisd noMatch true R (snd w) with
  | Some (Some New, d) =>
      (MkSDOperand New 0,
       ({| Root := Root (fst w); AllNodes := New :: AllNodes (fst w) |}, d))
  | Some (None, d) => (R, (fst w, d))
  | None => (R, w)
  end.

(** A [RemoveDeadNodes] that keeps the root node alone, and an emitter
    that appends the root to a list of emitted nodes. *)
Definition removeDeadNodes (G : SelectionDAG) : SelectionDAG :=
  {| Root := Root G; AllNodes := [Val (Root G)] |}.

Definition scheduleAndEmit (G : SelectionDAG) (bb : list SDNode)
  : list SDNode := bb ++ [Val (Root G)].
End Sample2.

(* ================================================================== *)
(** ** Properties of SelectAddr                                         *)
(* ================================================================== *)

(** Two enumerators at different places of the list are different, and
    every enumerator is below [BUILTIN_OP_END]. *)
Lemma enum_neq `{NT : ISD.NodeType} {E : ISD.Enum} (i j : nat) :
  Nat.ltb i 13 = true -> Nat.ltb j 13 = true -> Nat.eqb i j = false ->
  nth i ISD.enumerators 0 <> nth j ISD.enumerators 0.
Proof.
  intros Hi Hj Hij Heq.
  apply Nat.ltb_lt in Hi. apply Nat.ltb_lt in Hj. apply Nat.eqb_neq in Hij.
  apply Hij.
  apply (proj1 (NoDup_nth ISD.enumerators 0) ISD.enum_distinct i j);
    assumption.
Qed.

Lemma enum_below `{NT : ISD.NodeType} {E : ISD.Enum} (i : nat) :
  Nat.ltb i 13 = true ->
  0 <= nth i ISD.enumerators 0 < ISD.BUILTIN_OP_END.
Proof.
  intros Hi. apply Nat.ltb_lt in Hi.
  apply (proj1 (Forall_forall _ _) ISD.enum_builtin).
  apply nth_In. exact Hi.
Qed.

(** The place of an enumerator in [ISD.enumerators]. *)
Ltac enum_index x :=
  lazymatch x with
  | @ISD.Constant _ => constr:(0%nat)
  | @ISD.TargetConstant _ => constr:(1%nat)
  | @ISD.FrameIndex _ => constr:(2%nat)
  | @ISD.TargetFrameIndex _ => constr:(3%nat)
  | @ISD.TargetGlobalAddress _ => constr:(4%nat)
  | @ISD.TargetExternalSymbol _ => constr:(5%nat)
  | @ISD.ADD _ => constr:(6%nat)
  | @ISD.SDIV _ => constr:(7%nat)
  | @ISD.UDIV _ => constr:(8%nat)
  | @ISD.SREM _ => constr:(9%nat)
  | @ISD.UREM _ => constr:(10%nat)
  | @ISD.MULHU _ => constr:(11%nat)
  | @ISD.MULHS _ => constr:(12%nat)
  end.

(** [a <> b] for two different enumerators. *)
Ltac enum_differ E a b :=
  let i := enum_index a in
  let j := enum_index b in
  exact (@enum_neq _ E i j eq_refl eq_refl eq_refl).

(** Decide the equality tests between enumerators in the goal. *)
Ltac enum_tests E :=
  repeat match goal with
         | |- context [Z.eqb ?a ?a] => rewrite (Z.eqb_refl a)
         | |- context [Z.eqb ?a ?b] =>
             let Hne := fresh "Hne" in
             assert (Hne : a <> b) by enum_differ E a b;
             rewrite (proj2 (Z.eqb_neq a b) Hne); clear Hne
         end.

(** An enumerator is outside the custom range. *)
Ltac enum_not_custom E a :=
  let i := enum_index a in
  let Hb := fresh "Hb" in
  pose proof (@enum_below _ E i eq_refl) as Hb; cbn in Hb;
  replace (ISD.BUILTIN_OP_END <=? a) with false
    by (symmetry; apply Z.leb_gt; lia);
  clear Hb.

Lemma sample_enum : @ISD.Enum Sample.isd.
Proof.
  split; unfold ISD.enumerators; cbn.
  - repeat (apply NoDup_cons; [cbn; intuition discriminate|]).
    apply NoDup_nil.
  - repeat (apply Forall_cons; [lia|]). apply Forall_nil.
Qed.

Section AddrFacts.
Context `{NT : ISD.NodeType} {E : ISD.Enum}.

Lemma isa_FrameIndex_opcode (o : SDOperand) :
  isa_FrameIndexSDNode o = true <->
  getOpcode o = ISD.FrameIndex \/ getOpcode o = ISD.TargetFrameIndex.
Proof.
  unfold isa_FrameIndexSDNode. rewrite orb_true_iff, !Z.eqb_eq. tauto.
Qed.

Lemma isa_Constant_opcode (o : SDOperand) :
  isa_ConstantSDNode o = true <->
  getOpcode o = ISD.Constant \/ getOpcode o = ISD.TargetConstant.
Proof.
  unfold isa_ConstantSDNode. rewrite orb_true_iff, !Z.eqb_eq. tauto.
Qed.

(** Rule 1 of the matcher, by parameter position. *)
Lemma SelectAddr_frame_index (Op Addr O0 B0 : SDOperand) (k : Z) :
  isa_FrameIndexSDNode Addr = true ->
  getIndex (Val Addr) = Some k ->
  SelectAddr Op Addr O0 B0 =
  Some {| ret := true;
          arg3 := getTargetConstant 0 MVT.i32;
          arg4 := getTargetFrameIndex k MVT.i32 |}.
Proof.
  intros Hfi Hk. unfold SelectAddr, dyn_cast_FrameIndexSDNode.
  now rewrite Hfi, Hk.
Qed.

(** An [ADD] is neither a frame index nor a symbolic reference. *)
Lemma ADD_not_leaf (Addr : SDOperand) :
  getOpcode Addr = ISD.ADD ->
  isa_FrameIndexSDNode Addr = false
  /\ (getOpcode Addr =? ISD.TargetExternalSymbol) = false
  /\ (getOpcode Addr =? ISD.TargetGlobalAddress) = false
  /\ (getOpcode Addr =? ISD.ADD) = true.
Proof.
  intros Hadd. unfold isa_FrameIndexSDNode. rewrite Hadd.
  enum_tests E. repeat split.
Qed.

(** Rule 2: a target-concrete symbolic reference is refused and the
    caller's variables are left as they were. *)
Lemma SelectAddr_symbolic (Op Addr O0 B0 : SDOperand) :
  getOpcode Addr = ISD.TargetExternalSymbol
  \/ getOpcode Addr = ISD.TargetGlobalAddress ->
  SelectAddr Op Addr O0 B0 =
  Some {| ret := false; arg3 := O0; arg4 := B0 |}.
Proof.
  intros Hsym.
  unfold SelectAddr, dyn_cast_FrameIndexSDNode, isa_FrameIndexSDNode.
  destruct Hsym as [-> | ->]; enum_tests E; reflexivity.
Qed.

(** Whenever the matcher refuses, the node is a symbolic reference. *)
Lemma SelectAddr_false_inv (Op Addr O0 B0 : SDOperand) (r : AddrResult) :
  SelectAddr Op Addr O0 B0 = Some r -> ret r = false ->
  getOpcode Addr = ISD.TargetExternalSymbol
  \/ getOpcode Addr = ISD.TargetGlobalAddress.
Proof.
  unfold SelectAddr. intros Hrun Hret.
  destruct (dyn_cast_FrameIndexSDNode Addr).
  { destruct (getIndex s); [|discriminate].
    injection Hrun as <-. discriminate Hret. }
  destruct (getOpcode Addr =? ISD.TargetExternalSymbol) eqn:Hes.
  { left. now apply Z.eqb_eq. }
  destruct (getOpcode Addr =? ISD.TargetGlobalAddress) eqn:Hga.
  { right. now apply Z.eqb_eq. }
  exfalso. cbn [orb] in Hrun.
  repeat match type of Hrun with
         | context [match ?x with _ => _ end] => destruct x
         end;
    try discriminate Hrun; injection Hrun as <-; discriminate Hret.
Qed.

(** On well-formed input no library assertion fails. *)
Lemma SelectAddr_defined (Op Addr O0 B0 : SDOperand) :
  wf_addr Addr = true -> exists r, SelectAddr Op Addr O0 B0 = Some r.
Proof.
  unfold wf_addr, SelectAddr. intros Hwf.
  apply andb_true_iff in Hwf as [Hnode Hops].
  unfold node_ok in Hnode.
  apply andb_true_iff in Hnode as [Hnode Hadd].
  apply andb_true_iff in Hnode as [Hfi _].
  unfold dyn_cast_FrameIndexSDNode, getIndex.
  destruct (isa_FrameIndexSDNode Addr).
  { cbn in Hfi. destruct (getData (Val Addr)); try discriminate Hfi.
    eexists; reflexivity. }
  destruct ((getOpcode Addr =? ISD.TargetExternalSymbol)
            || (getOpcode Addr =? ISD.TargetGlobalAddress)).
  { eexists; reflexivity. }
  destruct (getOpcode Addr =? ISD.ADD); [|eexists; reflexivity].
  cbn in Hadd. unfold getOperand.
  destruct (getOperands (Val Addr)) as [|A [|B [|? ?]]];
    try discriminate Hadd.
  cbn in Hops. cbn [nth_error].
  apply andb_true_iff in Hops as [HA HB].
  apply andb_true_iff in HB as [HB _].
  unfold node_ok in HA, HB.
  apply andb_true_iff in HA as [HA _]. apply andb_true_iff in HA as [HA _].
  apply andb_true_iff in HB as [HB _]. apply andb_true_iff in HB as [_ HB].
  unfold dyn_cast_ConstantSDNode, Predicate_immSExt16, getValue, getIndex.
  destruct (isa_ConstantSDNode B); [|eexists; reflexivity].
  cbn in HB. destruct (getData (Val B)); try discriminate HB.
  match goal with
  | |- context [if (?a && ?b)%bool then _ else _] => destruct (a && b)%bool
  end; [|eexists; reflexivity].
  destruct (isa_FrameIndexSDNode A); [|eexists; reflexivity].
  cbn in HA. destruct (getData (Val A)); try discriminate HA.
  eexists; reflexivity.
Qed.

(** The default rule for an [ADD] whose second operand is not a
    constant. *)
Lemma SelectAddr_add_no_constant (Op Addr O0 B0 X : SDOperand) :
  getOpcode Addr = ISD.ADD ->
  getOperand (Val Addr) 1 = Some X ->
  isa_ConstantSDNode X = false ->
  SelectAddr Op Addr O0 B0 =
  Some {| ret := true; arg3 := getTargetConstant 0 MVT.i32; arg4 := Addr |}.
Proof.
  intros Hadd HX Hc.
  destruct (ADD_not_leaf Addr Hadd) as (Hfi & Hes & Hga & Hisadd).
  unfold SelectAddr, dyn_cast_FrameIndexSDNode, dyn_cast_ConstantSDNode.
  now rewrite Hfi, Hes, Hga, Hisadd, HX, Hc.
Qed.

(** The [ADD] rule once the second operand is a constant; [fits] is the
    verdict of [Predicate_immSExt16]. *)
Lemma SelectAddr_add_constant
      (Op Addr O0 B0 A B : SDOperand) (v : Z) (fits : bool) :
  getOpcode Addr = ISD.ADD ->
  getOperand (Val Addr) 0 = Some A ->
  getOperand (Val Addr) 1 = Some B ->
  isa_ConstantSDNode B = true ->
  getValue (Val B) = Some v ->
  Predicate_immSExt16 (Val B) = Some fits ->
  SelectAddr Op Addr O0 B0 =
  if fits then
    match dyn_cast_FrameIndexSDNode A with
    | Some FIN =>
        match getIndex FIN with
        | Some k => Some {| ret := true;
                            arg3 := getTargetConstant v MVT.i32;
                            arg4 := getTargetFrameIndex k MVT.i32 |}
        | None => None
        end
    | None => Some {| ret := true;
                      arg3 := getTargetConstant v MVT.i32;
                      arg4 := A |}
    end
  else Some {| ret := true;
               arg3 := getTargetConstant 0 MVT.i32;
               arg4 := Addr |}.
Proof.
  intros Hadd HA HB Hc Hv Hfits.
  destruct (ADD_not_leaf Addr Hadd) as (Hfi & Hes & Hga & Hisadd).
  unfold SelectAddr.
  unfold dyn_cast_FrameIndexSDNode at 1. unfold dyn_cast_ConstantSDNode.
  rewrite Hfi, Hes, Hga, Hisadd, HB, Hc, Hfits, HA, Hv. cbn [orb].
  destruct fits; [|reflexivity].
  destruct (dyn_cast_FrameIndexSDNode A); [|reflexivity].
  destruct (getIndex s); reflexivity.
Qed.

End AddrFacts.

Section AddrClaims.
Context `{NT : ISD.NodeType} {E : ISD.Enum}.

(** What [Predicate_immSExt16] decides for an [i32] constant: its
    signed reading lies between -32768 and 32767. *)
Lemma Predicate_immSExt16_i32 (o : Z) (ops : list SDOperand) (v : Z) :
  Predicate_immSExt16 (MkSDNode o [MVT.i32] ops (ConstantVal v)) = Some true
  <-> - 32768 <= sext 32 v <= 32767.
Proof.
  unfold Predicate_immSExt16. cbn.
  split.
  - intros Hp. injection Hp as Hp. apply andb_true_iff in Hp as [Hlo Hhi].
    apply Z.leb_le in Hlo. apply Z.ltb_lt in Hhi. lia.
  - intros [Hlo Hhi]. f_equal. apply andb_true_iff. split.
    + apply Z.leb_le. lia.
    + apply Z.ltb_lt. lia.
Qed.

(** C2. For a frame-index address with index [k] the matcher returns
    true with base the target frame index for [k] and offset the i32
    constant 0, in the order of the definition's parameters: the offset
    is written to the third parameter and the base to the fourth. *)
Theorem SelectAddr_frame_index_rule
        (Op Addr O0 B0 : SDOperand) (k : Z) :
  isa_FrameIndexSDNode Addr = true ->
  getIndex (Val Addr) = Some k ->
  exists r,
    SelectAddr Op Addr O0 B0 = Some r /\ ret r = true
    /\ Base r = getTargetFrameIndex k MVT.i32
    /\ Offset r = getTargetConstant 0 MVT.i32
    /\ arg3 r = getTargetConstant 0 MVT.i32
    /\ arg4 r = getTargetFrameIndex k MVT.i32.
Proof.
  intros Hfi Hk. eexists. split.
  { apply SelectAddr_frame_index; eassumption. }
  repeat split.
Qed.

(** C3. The matcher returns false exactly when the address is a target
    external symbol or a target global address; on every other
    well-formed address it returns true. *)
Theorem SelectAddr_false_iff_symbolic (Op Addr O0 B0 : SDOperand) :
  ((exists r, SelectAddr Op Addr O0 B0 = Some r /\ ret r = false)
   <-> (getOpcode Addr = ISD.TargetExternalSymbol
        \/ getOpcode Addr = ISD.TargetGlobalAddress))
  /\ (wf_addr Addr = true ->
      getOpcode Addr <> ISD.TargetExternalSymbol ->
      getOpcode Addr <> ISD.TargetGlobalAddress ->
      exists r, SelectAddr Op Addr O0 B0 = Some r /\ ret r = true).
Proof.
  split.
  - split.
    + intros (r & Hrun & Hret). eapply SelectAddr_false_inv; eassumption.
    + intros Hsym. eexists. split.
      * apply SelectAddr_symbolic; assumption.
      * reflexivity.
  - intros Hwf Hes Hga.
    destruct (SelectAddr_defined Op Addr O0 B0 Hwf) as [r Hrun].
    exists r. split; [assumption|].
    destruct (ret r) eqn:Hret; [reflexivity|].
    destruct (SelectAddr_false_inv _ _ _ _ _ Hrun Hret); contradiction.
Qed.

(** C4. For an addition [Addr = add(A, B)] whose second operand is a
    constant [v]: when [v] fits the signed 16-bit range the matcher
    succeeds with offset [v] and base the target frame index of [A] if
    [A] is a frame index, and [A] itself otherwise, also when [A] is
    another addition (one level only); when [v] does not fit, it
    succeeds with base [Addr] and offset 0. *)
Theorem SelectAddr_add_constant_rule
        (Op Addr O0 B0 A B : SDOperand) (v : Z) :
  getOpcode Addr = ISD.ADD ->
  getOperand (Val Addr) 0 = Some A ->
  getOperand (Val Addr) 1 = Some B ->
  isa_ConstantSDNode B = true ->
  getValue (Val B) = Some v ->
  (Predicate_immSExt16 (Val B) = Some true ->
   (forall k, isa_FrameIndexSDNode A = true -> getIndex (Val A) = Some k ->
      exists r, SelectAddr Op Addr O0 B0 = Some r /\ ret r = true
                /\ Offset r = getTargetConstant v MVT.i32
                /\ Base r = getTargetFrameIndex k MVT.i32)
   /\ (isa_FrameIndexSDNode A = false ->
       exists r, SelectAddr Op Addr O0 B0 = Some r /\ ret r = true
                 /\ Offset r = getTargetConstant v MVT.i32
                 /\ Base r = A)
   /\ (getOpcode A = ISD.ADD ->
       exists r, SelectAddr Op Addr O0 B0 = Some r /\ ret r = true
                 /\ Offset r = getTargetConstant v MVT.i32
                 /\ Base r = A))
  /\ (Predicate_immSExt16 (Val B) = Some false ->
      exists r, SelectAddr Op Addr O0 B0 = Some r /\ ret r = true
                /\ Base r = Addr
                /\ Offset r = getTargetConstant 0 MVT.i32).
Proof.
  intros Hadd HA HB Hc Hv.
  assert (Hnofi : isa_FrameIndexSDNode A = false ->
                  Predicate_immSExt16 (Val B) = Some true ->
                  exists r, SelectAddr Op Addr O0 B0 = Some r /\ ret r = true
                            /\ Offset r = getTargetConstant v MVT.i32
                            /\ Base r = A).
  { intros HnA Hfits.
    rewrite (SelectAddr_add_constant Op Addr O0 B0 A B v true) by assumption.
    unfold dyn_cast_FrameIndexSDNode. rewrite HnA.
    eexists. repeat split. }
  split.
  - intros Hfits. repeat split.
    + intros k HfiA Hk.
      rewrite (SelectAddr_add_constant Op Addr O0 B0 A B v true)
        by assumption.
      unfold dyn_cast_FrameIndexSDNode. rewrite HfiA, Hk.
      eexists. repeat split.
    + intros HnA. apply Hnofi; assumption.
    + intros HaddA. apply Hnofi; [|assumption].
      apply (ADD_not_leaf A HaddA).
  - intros Hfits.
    rewrite (SelectAddr_add_constant Op Addr O0 B0 A B v false)
      by assumption.
    eexists. repeat split.
Qed.

(** C9. For an addition [add(C, X)] whose first operand is a constant
    and whose second is not, the constant is not folded, whatever its
    value: the matcher succeeds with base the whole addition and offset
    0. *)
Theorem SelectAddr_constant_first_not_folded
        (Op Addr O0 B0 C X : SDOperand) :
  getOpcode Addr = ISD.ADD ->
  getOperand (Val Addr) 0 = Some C ->
  getOperand (Val Addr) 1 = Some X ->
  isa_ConstantSDNode C = true ->
  isa_ConstantSDNode X = false ->
  exists r, SelectAddr Op Addr O0 B0 = Some r /\ ret r = true
            /\ Base r = Addr
            /\ Offset r = getTargetConstant 0 MVT.i32.
Proof.
  intros Hadd _ HX _ HnX.
  rewrite (SelectAddr_add_no_constant Op Addr O0 B0 X) by assumption.
  eexists. repeat split.
Qed.

End AddrClaims.

(* ================================================================== *)
(** ** Properties of Select                                             *)
(* ================================================================== *)

Section SelectFacts.
Context `{NT : ISD.NodeType} `{MO : Mips.Opcode} `{MN : MipsISD.NodeType}.
Variable SelectCode : SDOperand -> ISelState -> option SDNode * ISelState.
Variable NDEBUG : bool.

(** The first debug block leaves the state [entered]. *)
Lemma debug_enter (N : SDOperand) (s : ISelState) :
  debug NDEBUG
    (Bind getIndent (fun i =>
       Bind (dout [TSpaces i; TText "Selecting: "; TDumpNode (Val N);
                   TText "\n"])
            (fun _ => setIndent (wrap32 (i + 2))))) s
  = Some (tt, entered NDEBUG N s).
Proof.
  unfold debug, entered. destruct NDEBUG; reflexivity.
Qed.

(** [Select] on a node of the custom range: only the two debug blocks
    run. *)
Lemma Select_custom (N : SDOperand) (s : ISelState) :
  isCustomNode (getOpcode N) = true ->
  Select SelectCode NDEBUG N s =
  Some (None,
        if NDEBUG then s
        else {| Indent := wrap32 (wrap32 (Indent s + 2) - 2);
                DOUT := DOUT s
                        ++ [TSpaces (Indent s); TText "Selecting: ";
                            TDumpNode (Val N); TText "\n"]
                        ++ [TSpaces (wrap32 (wrap32 (Indent s + 2) - 2));
                            TText "== "; TDumpNode (Val N); TText "\n"];
                Calls := Calls s |}).
Proof.
  intros Hc. unfold Select. cbv zeta. unfold getOpcode in Hc.
  unfold Bind at 1. rewrite debug_enter. rewrite Hc.
  unfold entered, debug. destruct NDEBUG; cbn; [reflexivity|].
  now rewrite <- app_assoc.
Qed.

(** [Select] on a special operation with operands [A] and [B]. *)
Lemma Select_special {E : ISD.Enum}
      (N A B : SDOperand) (s : ISelState) (prod cons : Z) :
  SpecialOp (getOpcode N) prod cons ->
  getOperand (Val N) 0 = Some A ->
  getOperand (Val N) 1 = Some B ->
  Select SelectCode NDEBUG N s =
  Some (Some (chain prod cons A B),
        add_calls (lowering_calls prod cons A B) (entered NDEBUG N s)).
Proof.
  intros Hsp HA HB.
  unfold Select, isCustomNode. cbv zeta. unfold getOpcode in Hsp.
  unfold Bind at 1. rewrite debug_enter.
  remember (getNodeOpcode (Val N)) as Opcode eqn:Ho in *. clear Ho.
  destruct Hsp;
    match goal with
    | |- context [ISD.BUILTIN_OP_END <=? ?a] => enum_not_custom E a
    end;
    enum_tests E; cbn [andb orb];
    unfold Bind, Assert; rewrite HA, HB;
    unfold AddToISelQueue, getTargetNode, call, Bind, Ret, add_calls,
      lowering_calls, chain;
    cbn [Indent DOUT Calls]; rewrite <- !app_assoc; reflexivity.
Qed.

(** Every special opcode has a row in the table. *)
Lemma isSpecialOp_table (Opcode : Z) :
  isSpecialOp Opcode = true -> exists prod cons, SpecialOp Opcode prod cons.
Proof.
  unfold isSpecialOp. rewrite !orb_true_iff, !Z.eqb_eq.
  intros [[[[[-> | ->] | ->] | ->] | ->] | ->];
    do 2 eexists; constructor.
Qed.

(** [Select] on any other node: the generated matcher runs between the
    two debug blocks. *)
Lemma Select_default (N : SDOperand) (s : ISelState) :
  isCustomNode (getOpcode N) = false ->
  isSpecialOp (getOpcode N) = false ->
  exists s',
    Select SelectCode NDEBUG N s = Some (fst (SelectCode N (entered NDEBUG N s)), s')
    /\ Indent s' =
       (if NDEBUG then Indent (snd (SelectCode N (entered NDEBUG N s)))
        else wrap32 (Indent (snd (SelectCode N (entered NDEBUG N s))) - 2))
    /\ Calls s' = Calls (snd (SelectCode N (entered NDEBUG N s))).
Proof.
  intros Hc Hs. unfold Select. cbv zeta.
  unfold getOpcode in Hc, Hs. unfold Bind at 1. rewrite debug_enter, Hc.
  unfold isSpecialOp in Hs. rewrite !orb_false_iff in Hs.
  destruct Hs as [[[[[-> ->] ->] ->] ->] ->]. cbn [orb].
  unfold Bind at 1. destruct (SelectCode N (entered NDEBUG N s)) as [R s1].
  cbn [fst snd]. unfold debug. destruct NDEBUG; cbn.
  - eexists; repeat split.
  - eexists; repeat split.
Qed.

End SelectFacts.

(** The node built for instruction [Opc] is a machine node whose
    instruction is [Opc]. *)
Lemma getTargetOpcode_TargetNode `{NT : ISD.NodeType}
      (Opc : Z) (VT : MVT.ValueType) (Ops : list SDOperand) :
  0 <= Opc ->
  isTargetOpcode (TargetNode Opc VT Ops) = true
  /\ getTargetOpcode (TargetNode Opc VT Ops) = Opc.
Proof.
  intros HOpc. unfold isTargetOpcode, getTargetOpcode, TargetNode. cbn.
  split.
  - apply Z.leb_le. lia.
  - lia.
Qed.

(** Adding 2 and then subtracting 2 restores an [unsigned]. *)
Lemma wrap32_add_sub (i : Z) :
  0 <= i < 2 ^ 32 -> wrap32 (wrap32 (i + 2) - 2) = i.
Proof.
  intros Hi. unfold wrap32. rewrite Zminus_mod_idemp_l.
  replace (i + 2 - 2) with i by lia. now apply Z.mod_small.
Qed.

(** The calls of a lowering register both operands before any node is
    built from them. *)
Lemma lowering_calls_queued_first `{NT : ISD.NodeType}
      (prod cons : Z) (A B : SDOperand) :
  queued_before_use [A; B] (lowering_calls prod cons A B).
Proof.
  unfold queued_before_use, lowering_calls.
  intros pre Opc VT Args post Op Hsplit Hin Hop.
  destruct pre as [|c1 [|c2 [|c3 [|c4 pre]]]]; cbn in Hsplit.
  - discriminate Hsplit.
  - discriminate Hsplit.
  - injection Hsplit as <- <- _ _ <- _.
    destruct Hop as [<- | [<- | []]]; cbn; tauto.
  - injection Hsplit as <- <- <- _ _ _.
    destruct Hop as [<- | [<- | []]]; cbn; tauto.
  - destruct pre; discriminate Hsplit.
Qed.

Section SelectClaims.
Context `{NT : ISD.NodeType} `{MO : Mips.Opcode} `{MN : MipsISD.NodeType}.
Context {E : ISD.Enum}.
Variable SelectCode : SDOperand -> ISelState -> option SDNode * ISelState.

Lemma Select_lowers_to (NDEBUG : bool) (N A B : SDOperand) (s : ISelState)
      (prod cons : Z) :
  SpecialOp (getOpcode N) prod cons ->
  getOperand (Val N) 0 = Some A ->
  getOperand (Val N) 1 = Some B ->
  lowers_to SelectCode NDEBUG N s prod cons A B.
Proof.
  intros Hsp HA HB. unfold lowers_to.
  rewrite (Select_special SelectCode NDEBUG N A B s prod cons Hsp HA HB).
  eexists. split; [reflexivity|].
  unfold add_calls, entered. destruct NDEBUG; reflexivity.
Qed.

(** C1. On a node with operands [A] and [B] whose opcode is one of the
    six special operations, [Select] returns the consumer of a
    two-instruction chain whose producer takes [A] and [B]:
    MULHS gives MULT then MFHI, MULHU gives MULTu then MFHI,
    SDIV gives DIV then MFLO, UDIV gives DIVu then MFLO,
    SREM gives DIV then MFHI, UREM gives DIVu then MFHI. *)
Theorem Select_special_op_table
        (NDEBUG : bool) (N A B : SDOperand) (s : ISelState) :
  getOperand (Val N) 0 = Some A ->
  getOperand (Val N) 1 = Some B ->
  (getOpcode N = ISD.MULHS ->
   lowers_to SelectCode NDEBUG N s Mips.MULT Mips.MFHI A B)
  /\ (getOpcode N = ISD.MULHU ->
      lowers_to SelectCode NDEBUG N s Mips.MULTu Mips.MFHI A B)
  /\ (getOpcode N = ISD.SDIV ->
      lowers_to SelectCode NDEBUG N s Mips.DIV Mips.MFLO A B)
  /\ (getOpcode N = ISD.UDIV ->
      lowers_to SelectCode NDEBUG N s Mips.DIVu Mips.MFLO A B)
  /\ (getOpcode N = ISD.SREM ->
      lowers_to SelectCode NDEBUG N s Mips.DIV Mips.MFHI A B)
  /\ (getOpcode N = ISD.UREM ->
      lowers_to SelectCode NDEBUG N s Mips.DIVu Mips.MFHI A B).
Proof.
  intros HA HB.
  repeat split; intros Ho; apply Select_lowers_to; try assumption;
    rewrite Ho; constructor.
Qed.

(** C6. In each special-op branch the two operands are registered with
    the queue, in order, before the producer node is built, and no
    operand is used by a [getTargetNode] call that comes before its
    registration. *)
Theorem Select_queues_operands_first
        (NDEBUG : bool) (N A B : SDOperand) (s : ISelState) :
  isSpecialOp (getOpcode N) = true ->
  getOperand (Val N) 0 = Some A ->
  getOperand (Val N) 1 = Some B ->
  exists R s' prod later,
    Select SelectCode NDEBUG N s = Some (Some R, s')
    /\ Calls s' = Calls s
                  ++ CallAddToISelQueue A :: CallAddToISelQueue B
                  :: CallGetTargetNode prod MVT.Flag [A; B] :: later
    /\ queued_before_use [A; B]
         (CallAddToISelQueue A :: CallAddToISelQueue B
          :: CallGetTargetNode prod MVT.Flag [A; B] :: later).
Proof.
  intros Hsp HA HB.
  destruct (isSpecialOp_table _ Hsp) as (prod & cons & Hrow).
  destruct (Select_lowers_to NDEBUG N A B s prod cons Hrow HA HB)
    as (s' & Hrun & Hcalls).
  do 4 eexists. split; [exact Hrun|]. split; [exact Hcalls|].
  apply lowering_calls_queued_first.
Qed.

(** C7. In each special-op lowering the producer has exactly one result,
    of the flag type, the consumer returned by [Select] has result 0 of
    the producer as its only operand, and the consumer's result is an
    [i32]. *)
Theorem Select_flag_edge
        (NDEBUG : bool) (N A B : SDOperand) (s : ISelState) :
  isSpecialOp (getOpcode N) = true ->
  getOperand (Val N) 0 = Some A ->
  getOperand (Val N) 1 = Some B ->
  exists Producer Consumer s',
    Select SelectCode NDEBUG N s = Some (Some Consumer, s')
    /\ getValueTypes Producer = [MVT.Flag]
    /\ getOperands Producer = [A; B]
    /\ getOperands Consumer = [MkSDOperand Producer 0]
    /\ getValueTypes Consumer = [MVT.i32].
Proof.
  intros Hsp HA HB.
  destruct (isSpecialOp_table _ Hsp) as (prod & cons & Hrow).
  destruct (Select_lowers_to NDEBUG N A B s prod cons Hrow HA HB)
    as (s' & Hrun & _).
  exists (TargetNode prod MVT.Flag [A; B]). do 2 eexists.
  split; [exact Hrun|]. repeat split.
Qed.

End SelectClaims.

Section SelectFrame.
Context `{NT : ISD.NodeType} `{MO : Mips.Opcode} `{MN : MipsISD.NodeType}.

(** C5. On a node whose opcode is at least [ISD::BUILTIN_OP_END] and
    below [MipsISD::FIRST_NUMBER], [Select] returns [NULL] without any
    library call and whatever the generated matcher is: the test comes
    before the special-op switch and before [SelectCode]. *)
Theorem Select_custom_unchanged
        (SelectCode : SDOperand -> ISelState -> option SDNode * ISelState)
        (NDEBUG : bool) (N : SDOperand) (s : ISelState) :
  ISD.BUILTIN_OP_END <= getOpcode N < MipsISD.FIRST_NUMBER ->
  (exists s',
      Select SelectCode NDEBUG N s = Some (None, s')
      /\ Calls s' = Calls s
      /\ (NDEBUG = true -> s' = s))
  /\ (forall SelectCode',
         Select SelectCode' NDEBUG N s = Select SelectCode NDEBUG N s).
Proof.
  intros [Hlo Hhi].
  assert (Hc : isCustomNode (getOpcode N) = true).
  { unfold isCustomNode. apply andb_true_iff. split.
    - now apply Z.leb_le.
    - now apply Z.ltb_lt. }
  split.
  - rewrite (Select_custom SelectCode NDEBUG N s Hc).
    eexists. split; [reflexivity|].
    destruct NDEBUG.
    + split; [reflexivity|]. intros _. reflexivity.
    + split; [reflexivity|]. intros Hd. discriminate Hd.
  - intros SelectCode'.
    now rewrite !Select_custom by assumption.
Qed.

(** C10. In a debug build [Select] leaves [Indent] two above its entry
    value (as an [unsigned]) when the node is a special operation, since
    those branches return without the decrement, and at its entry value
    for every other node, on which the increment on entry is undone
    before the return. *)
Theorem Select_Indent_effect {E : ISD.Enum}
        (SelectCode : SDOperand -> ISelState -> option SDNode * ISelState)
        (N : SDOperand) (s : ISelState) :
  0 <= Indent s < 2 ^ 32 ->
  (forall M t, Indent (snd (SelectCode M t)) = Indent t) ->
  (isSpecialOp (getOpcode N) = true ->
   forall A B,
     getOperand (Val N) 0 = Some A ->
     getOperand (Val N) 1 = Some B ->
     exists R s',
       Select SelectCode false N s = Some (Some R, s')
       /\ Indent s' = wrap32 (Indent s + 2)
       /\ (Indent s + 2 < 2 ^ 32 -> Indent s' = Indent s + 2))
  /\ (isSpecialOp (getOpcode N) = false ->
      exists R s',
        Select SelectCode false N s = Some (R, s')
        /\ Indent s' = Indent s).
Proof.
  intros Hrange Hcode. split.
  - intros Hsp A B HA HB.
    destruct (isSpecialOp_table _ Hsp) as (prod & cons & Hrow).
    rewrite (Select_special SelectCode false N A B s prod cons Hrow HA HB).
    do 2 eexists. split; [reflexivity|]. cbn. split; [reflexivity|].
    intros Hfit. unfold wrap32. apply Z.mod_small. lia.
  - intros Hsp. destruct (isCustomNode (getOpcode N)) eqn:Hc.
    + rewrite (Select_custom SelectCode false N s Hc).
      do 2 eexists. split; [reflexivity|]. cbn.
      now apply wrap32_add_sub.
    + destruct (Select_default SelectCode false N s Hc Hsp)
        as (s' & Hrun & Hind & _).
      do 2 eexists. split; [exact Hrun|].
      rewrite Hind, Hcode. cbn. now apply wrap32_add_sub.
Qed.

End SelectFrame.

(* ================================================================== *)
(** ** Properties of InstructionSelectBasicBlock                        *)
(* ================================================================== *)

(** C8. The driver selects from the root and installs the root that
    [SelectRoot] returns, then prunes that DAG with [RemoveDeadNodes],
    and gives the pruned DAG to [ScheduleAndEmitDAG]; its own tracing
    writes only the debug state, so that with a [SelectRoot] that does
    not read the debug state the DAG and the emitted block are the same
    with and without tracing. *)
Theorem InstructionSelectBasicBlock_steps
        (MachineBasicBlock : Type)
        (SelectRoot : SDOperand -> SelectionDAG * ISelState
                      -> SDOperand * (SelectionDAG * ISelState))
        (RemoveDeadNodes : SelectionDAG -> SelectionDAG)
        (ScheduleAndEmitDAG : SelectionDAG -> MachineBasicBlock
                              -> MachineBasicBlock)
        (NDEBUG : bool) (st : PassState MachineBasicBlock) :
  let run := InstructionSelectBasicBlock MachineBasicBlock SelectRoot
               RemoveDeadNodes ScheduleAndEmitDAG in
  let sel := SelectRoot (getRoot (SD st))
               (SD st, trace_begin NDEBUG (ISelSt st)) in
  let installed := setRoot (fst sel) (fst (snd sel)) in
  let pruned := RemoveDeadNodes installed in
  getRoot installed = fst sel
  /\ AllNodes installed = AllNodes (fst (snd sel))
  /\ SD (run NDEBUG st) = pruned
  /\ BB (run NDEBUG st) = ScheduleAndEmitDAG pruned (BB st)
  /\ ISelSt (run NDEBUG st) = trace_end NDEBUG (snd (snd sel))
  /\ (diag_independent SelectRoot ->
      SD (run false st) = SD (run true st)
      /\ BB (run false st) = BB (run true st)).
Proof.
  cbv zeta. unfold InstructionSelectBasicBlock.
  split; [reflexivity|]. split; [reflexivity|].
  split; [|split; [|split]].
  - destruct (SelectRoot _ _) as [R [G d]]. reflexivity.
  - destruct (SelectRoot _ _) as [R [G d]]. reflexivity.
  - destruct (SelectRoot _ _) as [R [G d]]. reflexivity.
  - intros Hind.
    destruct (Hind (getRoot (SD st)) (SD st)
                   (trace_begin false (ISelSt st))
                   (trace_begin true (ISelSt st))) as [Hr Hg].
    destruct (SelectRoot _ (_, trace_begin false _)) as [R [G d]].
    destruct (SelectRoot _ (_, trace_begin true _)) as [R' [G' d']].
    cbn in Hr, Hg. subst R' G'. split; reflexivity.
Qed.

(* ================================================================== *)
(** ** Further properties of SelectAddr                                 *)
(* ================================================================== *)

(** A constant that passes [Predicate_immSExt16] lies in the signed
    16-bit range when its low 32 bits are read as a signed number. *)
Lemma sext_64_32 (v : Z) :
  - 2 ^ 15 <= sext 64 v < 2 ^ 15 -> sext 32 v = sext 64 v.
Proof.
  unfold sext. intros Hr.
  assert (H32 : (v mod 2 ^ 64) mod 2 ^ 32 = v mod 2 ^ 32).
  { apply Z.mod_mod_divide. exists (2 ^ 32). reflexivity. }
  pose proof (Z.mod_pos_bound v (2 ^ 64) ltac:(lia)) as Hb64.
  pose proof (Z.mod_pos_bound v (2 ^ 32) ltac:(lia)) as Hb32.
  pose proof (Z.div_mod (v mod 2 ^ 64) (2 ^ 32) ltac:(lia)) as Hdm.
  rewrite H32 in Hdm.
  change (64 - 1) with 63 in *. change (32 - 1) with 31.
  destruct (v mod 2 ^ 64 <? 2 ^ 63) eqn:H63.
  - apply Z.ltb_lt in H63.
    destruct (v mod 2 ^ 32 <? 2 ^ 31) eqn:H31.
    + apply Z.ltb_lt in H31. lia.
    + apply Z.ltb_ge in H31. lia.
  - apply Z.ltb_ge in H63.
    destruct (v mod 2 ^ 32 <? 2 ^ 31) eqn:H31.
    + apply Z.ltb_lt in H31. lia.
    + apply Z.ltb_ge in H31. lia.
Qed.

Section AddrMore.
Context `{NT : ISD.NodeType}.

Lemma Predicate_immSExt16_range (CN : SDNode) (v : Z) :
  Predicate_immSExt16 CN = Some true ->
  getValue CN = Some v ->
  - 32768 <= sext 32 v <= 32767.
Proof.
  unfold Predicate_immSExt16. intros Hp Hv. rewrite Hv in Hp.
  injection Hp as Hp. apply andb_true_iff in Hp as [Hlo Hhi].
  apply Z.leb_le in Hlo. apply Z.ltb_lt in Hhi.
  change (2 ^ 15) with 32768 in Hlo, Hhi.
  assert (H64 : - 32768 <= sext 64 v < 32768 -> - 32768 <= sext 32 v <= 32767).
  { intros Hr. rewrite sext_64_32; [lia|].
    change (2 ^ 15) with 32768. exact Hr. }
  destruct (getValueTypes CN) as [|[] ?]; try (apply H64; lia); lia.
Qed.

(** Every result of [SelectAddr] is one of the five outcomes. *)
Lemma SelectAddr_outcome (Op Addr O0 B0 : SDOperand) (r : AddrResult) :
  SelectAddr Op Addr O0 B0 = Some r -> AddrOutcome Addr O0 B0 r.
Proof.
  unfold SelectAddr, dyn_cast_FrameIndexSDNode, dyn_cast_ConstantSDNode.
  intros Hrun.
  destruct (isa_FrameIndexSDNode Addr) eqn:Hfi.
  { destruct (getIndex (Val Addr)) as [k|] eqn:Hk; [|discriminate Hrun].
    injection Hrun as <-. now apply Out_frame_index. }
  destruct (getOpcode Addr =? ISD.TargetExternalSymbol) eqn:Hes.
  { injection Hrun as <-. apply Out_symbolic; [assumption|].
    left. now apply Z.eqb_eq. }
  destruct (getOpcode Addr =? ISD.TargetGlobalAddress) eqn:Hga.
  { injection Hrun as <-. apply Out_symbolic; [assumption|].
    right. now apply Z.eqb_eq. }
  apply Z.eqb_neq in Hes, Hga. cbn [orb] in Hrun.
  assert (Hdef : forall r',
             Some {| ret := true;
                     arg3 := getTargetConstant 0 MVT.i32;
                     arg4 := Addr |} = Some r' ->
             AddrOutcome Addr O0 B0 r').
  { intros r' Heq. injection Heq as <-. now apply Out_default. }
  destruct (getOpcode Addr =? ISD.ADD) eqn:Hadd; [|now apply Hdef].
  apply Z.eqb_eq in Hadd.
  destruct (getOperand (Val Addr) 1) as [Op1|] eqn:H1; [|discriminate Hrun].
  destruct (isa_ConstantSDNode Op1) eqn:Hc; [|now apply Hdef].
  destruct (Predicate_immSExt16 (Val Op1)) as [[|]|] eqn:Hp;
    [|now apply Hdef|discriminate Hrun].
  destruct (getOperand (Val Addr) 0) as [Op0|] eqn:H0; [|discriminate Hrun].
  destruct (isa_FrameIndexSDNode Op0) eqn:Hfi0.
  - destruct (getIndex (Val Op0)) as [k|] eqn:Hk; [|discriminate Hrun].
    destruct (getValue (Val Op1)) as [v|] eqn:Hv; [|discriminate Hrun].
    injection Hrun as <-.
    now apply (Out_folded_frame_index Addr O0 B0 Op0 Op1 v k).
  - destruct (getValue (Val Op1)) as [v|] eqn:Hv; [|discriminate Hrun].
    injection Hrun as <-.
    now apply (Out_folded Addr O0 B0 Op0 Op1 v).
Qed.

(** X1. When [SelectAddr] refuses it leaves both reference parameters
    as they were; when it succeeds, what it writes depends neither on
    their previous contents nor on [Op]. *)
Theorem SelectAddr_outputs
        (Op Op' Addr O0 B0 O1 B1 : SDOperand) (r : AddrResult) :
  SelectAddr Op Addr O0 B0 = Some r ->
  (ret r = false -> arg3 r = O0 /\ arg4 r = B0)
  /\ (ret r = true -> SelectAddr Op' Addr O1 B1 = Some r).
Proof.
  intros Hrun. split.
  - intros Hret. apply SelectAddr_outcome in Hrun.
    destruct Hrun; try discriminate Hret. split; reflexivity.
  - intros Hret. revert Hrun.
    unfold SelectAddr.
    destruct (dyn_cast_FrameIndexSDNode Addr); [exact (fun H => H)|].
    destruct ((getOpcode Addr =? ISD.TargetExternalSymbol)
              || (getOpcode Addr =? ISD.TargetGlobalAddress)).
    + intros Heq. injection Heq as <-. discriminate Hret.
    + exact (fun H => H).
Qed.

(** X2. On success the offset is always an i32 target constant: either
    0, or the value of the constant second operand of an [ADD] that
    passed [Predicate_immSExt16]. *)
Theorem SelectAddr_offset_shape
        (Op Addr O0 B0 : SDOperand) (r : AddrResult) :
  SelectAddr Op Addr O0 B0 = Some r ->
  ret r = true ->
  exists v,
    Offset r = getTargetConstant v MVT.i32
    /\ (v = 0
        \/ (getOpcode Addr = ISD.ADD
            /\ exists Op1,
                getOperand (Val Addr) 1 = Some Op1
                /\ isa_ConstantSDNode Op1 = true
                /\ getValue (Val Op1) = Some v
                /\ Predicate_immSExt16 (Val Op1) = Some true)).
Proof.
  intros Hrun Hret. apply SelectAddr_outcome in Hrun.
  destruct Hrun as [k Hfi Hk| |Op0 Op1 v k|Op0 Op1 v|];
    try discriminate Hret.
  - exists 0. split; [reflexivity|]. now left.
  - exists v. split; [reflexivity|]. right. split; [assumption|].
    exists Op1. repeat split; assumption.
  - exists v. split; [reflexivity|]. right. split; [assumption|].
    exists Op1. repeat split; assumption.
  - exists 0. split; [reflexivity|]. now left.
Qed.

(** X3. On success the offset constant, read as a signed 32-bit number,
    always lies between -32768 and 32767. *)
Theorem SelectAddr_offset_fits_simm16
        (Op Addr O0 B0 : SDOperand) (r : AddrResult) :
  SelectAddr Op Addr O0 B0 = Some r ->
  ret r = true ->
  exists v,
    Offset r = getTargetConstant v MVT.i32
    /\ - 32768 <= sext 32 v <= 32767.
Proof.
  intros Hrun Hret. apply SelectAddr_outcome in Hrun.
  destruct Hrun as [k Hfi Hk| |Op0 Op1 v k|Op0 Op1 v|];
    try discriminate Hret.
  - exists 0. split; [reflexivity|]. cbv. split; discriminate.
  - exists v. split; [reflexivity|].
    eapply Predicate_immSExt16_range; eassumption.
  - exists v. split; [reflexivity|].
    eapply Predicate_immSExt16_range; eassumption.
  - exists 0. split; [reflexivity|]. cbv. split; discriminate.
Qed.

End AddrMore.

Section AddrMoreEnum.
Context `{NT : ISD.NodeType} {E : ISD.Enum}.

(** X4. On success the base is never a generic [FrameIndex] node: a
    frame index in base position has always been turned into its
    target form. *)
Theorem SelectAddr_base_never_FrameIndex
        (Op Addr O0 B0 : SDOperand) (r : AddrResult) :
  SelectAddr Op Addr O0 B0 = Some r ->
  ret r = true ->
  getOpcode (Base r) <> ISD.FrameIndex.
Proof.
  intros Hrun Hret. apply SelectAddr_outcome in Hrun.
  assert (Htfi : forall k,
             getOpcode (getTargetFrameIndex k MVT.i32) <> ISD.FrameIndex).
  { intros k. cbn.
    enum_differ E (@ISD.TargetFrameIndex NT) (@ISD.FrameIndex NT). }
  assert (Hnofi : forall o,
             isa_FrameIndexSDNode o = false -> getOpcode o <> ISD.FrameIndex).
  { intros o Ho Heq. unfold isa_FrameIndexSDNode in Ho.
    rewrite Heq, Z.eqb_refl in Ho. discriminate Ho. }
  destruct Hrun; try discriminate Hret; unfold Base; cbn [arg4];
    auto.
Qed.

(** X7. An [ADD] with fewer than two operands gives no result: operand
    1 is read before anything else. *)
Theorem SelectAddr_add_needs_two_operands
        (Op Addr O0 B0 : SDOperand) :
  getOpcode Addr = ISD.ADD ->
  (List.length (getOperands (Val Addr)) < 2)%nat ->
  SelectAddr Op Addr O0 B0 = None.
Proof.
  intros Hadd Hlen.
  destruct (ADD_not_leaf Addr Hadd) as (Hfi & Hes & Hga & Hisadd).
  unfold SelectAddr, dyn_cast_FrameIndexSDNode.
  rewrite Hfi, Hes, Hga, Hisadd. cbn [orb].
  assert (H1 : getOperand (Val Addr) 1 = None).
  { unfold getOperand. apply nth_error_None. lia. }
  now rewrite H1.
Qed.

End AddrMoreEnum.

Section AddrMore2.
Context `{NT : ISD.NodeType}.

(** X5. Matching a frame-index address is idempotent: the base it
    returns is matched, by any later call, to the very same result. *)
Theorem SelectAddr_frame_index_idempotent
        (Op Addr O0 B0 : SDOperand) (k : Z) :
  isa_FrameIndexSDNode Addr = true ->
  getIndex (Val Addr) = Some k ->
  exists r,
    SelectAddr Op Addr O0 B0 = Some r
    /\ forall Op' O1 B1, SelectAddr Op' (Base r) O1 B1 = Some r.
Proof.
  intros Hfi Hk. eexists. split.
  - apply SelectAddr_frame_index; eassumption.
  - intros Op' O1 B1. unfold Base. cbn [arg4].
    apply SelectAddr_frame_index.
    + unfold isa_FrameIndexSDNode. cbn.
      rewrite Z.eqb_refl. apply orb_true_r.
    + reflexivity.
Qed.

(** X6. Only an [ADD] is ever split: for every node that is neither a
    frame index, nor a target symbol, nor an [ADD] (a bare constant, a
    subtraction or an OR with a constant, a register), the base is the
    node itself and the offset is 0, whatever its operands. *)
Theorem SelectAddr_default_rule (Op Addr O0 B0 : SDOperand) :
  isa_FrameIndexSDNode Addr = false ->
  getOpcode Addr <> ISD.TargetExternalSymbol ->
  getOpcode Addr <> ISD.TargetGlobalAddress ->
  getOpcode Addr <> ISD.ADD ->
  exists r,
    SelectAddr Op Addr O0 B0 = Some r
    /\ ret r = true /\ Base r = Addr
    /\ Offset r = getTargetConstant 0 MVT.i32.
Proof.
  intros Hfi Hes Hga Hadd.
  unfold SelectAddr, dyn_cast_FrameIndexSDNode. rewrite Hfi.
  apply Z.eqb_neq in Hes, Hga, Hadd. rewrite Hes, Hga, Hadd. cbn [orb].
  eexists. repeat split.
Qed.

End AddrMore2.

(* ================================================================== *)
(** ** Further properties of Select                                     *)
(* ================================================================== *)

Section SelectMore.
Context `{NT : ISD.NodeType} `{MO : Mips.Opcode} `{MN : MipsISD.NodeType}.

(** The first debug block of [Select], followed by the rest. *)
Lemma Bind_debug_enter {B : Type}
      (NDEBUG : bool) (N : SDOperand) (s : ISelState) (k : unit -> ISel B) :
  Bind (debug NDEBUG
          (Bind getIndent (fun i =>
             Bind (dout [TSpaces i; TText "Selecting: "; TDumpNode (Val N);
                         TText "\n"])
                  (fun _ => setIndent (wrap32 (i + 2)))))) k s
  = k tt (entered NDEBUG N s).
Proof.
  unfold Bind at 1. now rewrite debug_enter.
Qed.

(** X9. On a special operation [Select] never consults the generated
    matcher: the hand-written lowering takes precedence over whatever
    pattern the table holds for the opcode. *)
Theorem Select_special_ignores_matcher
        (SelectCode SelectCode' :
           SDOperand -> ISelState -> option SDNode * ISelState)
        (NDEBUG : bool) (N : SDOperand) (s : ISelState) :
  isSpecialOp (getOpcode N) = true ->
  Select SelectCode NDEBUG N s = Select SelectCode' NDEBUG N s.
Proof.
  unfold isSpecialOp, getOpcode. intros Hsp.
  unfold Select. cbv zeta. rewrite !Bind_debug_enter.
  destruct (isCustomNode (getNodeOpcode (Val N))); [reflexivity|].
  destruct ((getNodeOpcode (Val N) =? ISD.MULHS)
            || (getNodeOpcode (Val N) =? ISD.MULHU)) eqn:Hmul;
    [reflexivity|].
  destruct ((getNodeOpcode (Val N) =? ISD.SDIV)
            || (getNodeOpcode (Val N) =? ISD.UDIV)) eqn:Hdiv;
    [reflexivity|].
  destruct ((getNodeOpcode (Val N) =? ISD.SREM)
            || (getNodeOpcode (Val N) =? ISD.UREM)) eqn:Hrem;
    [reflexivity|].
  apply orb_false_iff in Hdiv as [Hsdiv Hudiv].
  apply orb_false_iff in Hrem as [Hsrem Hurem].
  rewrite ?Hmul, Hsdiv, Hudiv, Hsrem, Hurem in Hsp. discriminate Hsp.
Qed.

(** X11. On a node that is neither custom nor special [Select] returns
    exactly what the generated matcher returns (in particular [NULL]
    when nothing matches) and makes no library call of its own; in a
    release build it is the matcher, state included. *)
Theorem Select_fallback_passthrough
        (SelectCode : SDOperand -> ISelState -> option SDNode * ISelState)
        (NDEBUG : bool) (N : SDOperand) (s : ISelState) :
  isCustomNode (getOpcode N) = false ->
  isSpecialOp (getOpcode N) = false ->
  (exists s',
      Select SelectCode NDEBUG N s
      = Some (fst (SelectCode N (entered NDEBUG N s)), s')
      /\ Calls s' = Calls (snd (SelectCode N (entered NDEBUG N s))))
  /\ (NDEBUG = true ->
      Select SelectCode NDEBUG N s = Some (SelectCode N s)).
Proof.
  intros Hc Hsp. split.
  - destruct (Select_default SelectCode NDEBUG N s Hc Hsp)
      as (s' & Hrun & _ & Hcalls).
    exists s'. split; assumption.
  - intros ->. unfold getOpcode in Hc, Hsp.
    unfold Select. cbv zeta. rewrite Bind_debug_enter. cbn [entered].
    rewrite Hc. unfold isSpecialOp in Hsp. rewrite !orb_false_iff in Hsp.
    destruct Hsp as [[[[[-> ->] ->] ->] ->] ->]. cbn [orb].
    cbv [Bind debug Ret].
    destruct (SelectCode N s) as [R s1]. reflexivity.
Qed.

(** X10. The debug blocks of [Select] have no effect on selection: with
    a matcher whose result and calls do not depend on the debug state,
    a debug build and a release build return the same node and make the
    same library calls, and fail on the same nodes. *)
Theorem Select_tracing_no_effect
        (SelectCode : SDOperand -> ISelState -> option SDNode * ISelState)
        (N : SDOperand) (s : ISelState) :
  (forall M t t',
      Calls t = Calls t' ->
      fst (SelectCode M t) = fst (SelectCode M t')
      /\ Calls (snd (SelectCode M t)) = Calls (snd (SelectCode M t'))) ->
  option_map (fun x => (fst x, Calls (snd x)))
             (Select SelectCode false N s)
  = option_map (fun x => (fst x, Calls (snd x)))
               (Select SelectCode true N s).
Proof.
  intros Hcode.
  unfold Select. cbv zeta. rewrite !Bind_debug_enter.
  destruct (isCustomNode (getNodeOpcode (Val N))).
  { reflexivity. }
  assert (Hlower : forall p c,
    option_map (fun x => (fst x, Calls (snd x)))
      ((MulOp1 <- Assert (getOperand (Val N) 0) ;;
        MulOp2 <- Assert (getOperand (Val N) 1) ;;
        AddToISelQueue MulOp1 ;;
        AddToISelQueue MulOp2 ;;
        MulNode <- getTargetNode p MVT.Flag [MulOp1; MulOp2] ;;
        R <- getTargetNode c MVT.i32 [MkSDOperand MulNode 0] ;;
        Ret (Some R))%isel (entered false N s))
    = option_map (fun x => (fst x, Calls (snd x)))
      ((MulOp1 <- Assert (getOperand (Val N) 0) ;;
        MulOp2 <- Assert (getOperand (Val N) 1) ;;
        AddToISelQueue MulOp1 ;;
        AddToISelQueue MulOp2 ;;
        MulNode <- getTargetNode p MVT.Flag [MulOp1; MulOp2] ;;
        R <- getTargetNode c MVT.i32 [MkSDOperand MulNode 0] ;;
        Ret (Some R))%isel (entered true N s))).
  { intros p c. unfold Bind, Assert.
    destruct (getOperand (Val N) 0); [|reflexivity].
    destruct (getOperand (Val N) 1); reflexivity. }
  destruct ((getNodeOpcode (Val N) =? ISD.MULHS)
            || (getNodeOpcode (Val N) =? ISD.MULHU)); [apply Hlower|].
  destruct ((getNodeOpcode (Val N) =? ISD.SDIV)
            || (getNodeOpcode (Val N) =? ISD.UDIV)); [apply Hlower|].
  destruct ((getNodeOpcode (Val N) =? ISD.SREM)
            || (getNodeOpcode (Val N) =? ISD.UREM)); [apply Hlower|].
  destruct (Hcode N (entered false N s) (entered true N s) eq_refl)
    as [Hres Hcalls].
  cbv [Bind debug Ret getIndent dout setIndent option_map].
  destruct (SelectCode N (entered false N s)) as [R1 s1].
  destruct (SelectCode N (entered true N s)) as [R2 s2].
  cbn in Hres, Hcalls. subst R2. cbn. now rewrite Hcalls.
Qed.

End SelectMore.

Section SelectMoreEnum.
Context `{NT : ISD.NodeType} `{MO : Mips.Opcode} `{MN : MipsISD.NodeType}.
Context {E : ISD.Enum}.
Variable SelectCode : SDOperand -> ISelState -> option SDNode * ISelState.

(** A special operation without a second operand trips the assertion
    of [getOperand]. *)
Lemma Select_special_short (NDEBUG : bool) (N : SDOperand) (s : ISelState) :
  isSpecialOp (getOpcode N) = true ->
  getOperand (Val N) 1 = None ->
  Select SelectCode NDEBUG N s = None.
Proof.
  intros Hsp H1.
  destruct (isSpecialOp_table _ Hsp) as (prod & cons & Hrow).
  unfold Select, isCustomNode. cbv zeta. unfold getOpcode in Hrow.
  rewrite Bind_debug_enter.
  remember (getNodeOpcode (Val N)) as Opcode eqn:Ho in *. clear Ho.
  destruct Hrow;
    match goal with
    | |- context [ISD.BUILTIN_OP_END <=? ?a] => enum_not_custom E a
    end;
    enum_tests E; cbn [andb orb];
    unfold Bind, Assert; rewrite H1;
    destruct (getOperand (Val N) 0); reflexivity.
Qed.

(** X8. On a special operation [Select] returns a result exactly when
    the node has at least two operands, and the node it returns and the
    library calls it makes depend only on the opcode and on the first
    two operands: further operands, the result types and the payload of
    the node change nothing but the debug dump. *)
Theorem Select_special_defined_iff
        (NDEBUG : bool) (N : SDOperand) (s : ISelState) :
  isSpecialOp (getOpcode N) = true ->
  ((exists r, Select SelectCode NDEBUG N s = Some r)
   <-> (2 <= List.length (getOperands (Val N)))%nat)
  /\ (forall N',
        getOpcode N' = getOpcode N ->
        getOperand (Val N') 0 = getOperand (Val N) 0 ->
        getOperand (Val N') 1 = getOperand (Val N) 1 ->
        option_map (fun x => (fst x, Calls (snd x)))
                   (Select SelectCode NDEBUG N' s)
        = option_map (fun x => (fst x, Calls (snd x)))
                     (Select SelectCode NDEBUG N s)).
Proof.
  intros Hsp. split; [split|].
  - intros [r Hrun].
    destruct (getOperand (Val N) 1) as [B|] eqn:H1.
    + assert (Hlt : (1 < List.length (getOperands (Val N)))%nat).
      { apply nth_error_Some. unfold getOperand in H1. now rewrite H1. }
      lia.
    + rewrite (Select_special_short NDEBUG N s Hsp H1) in Hrun.
      discriminate Hrun.
  - intros Hlen.
    destruct (isSpecialOp_table _ Hsp) as (prod & cons & Hrow).
    destruct (getOperands (Val N)) as [|A [|B rest]] eqn:Hops;
      cbn in Hlen; try lia.
    eexists.
    apply (Select_special SelectCode NDEBUG N A B s prod cons Hrow);
      unfold getOperand; now rewrite Hops.
  - intros N' Hop H0 H1.
    assert (Hsp' : isSpecialOp (getOpcode N') = true)
      by (rewrite Hop; exact Hsp).
    destruct (getOperand (Val N) 1) as [B|] eqn:HB.
    + destruct (getOperand (Val N) 0) as [A|] eqn:HA.
      * destruct (isSpecialOp_table _ Hsp) as (prod & cons & Hrow).
        assert (Hrow' : SpecialOp (getOpcode N') prod cons)
          by (rewrite Hop; exact Hrow).
        rewrite (Select_special SelectCode NDEBUG N' A B s prod cons
                   Hrow' H0 H1).
        rewrite (Select_special SelectCode NDEBUG N A B s prod cons
                   Hrow HA HB).
        unfold add_calls, entered. destruct NDEBUG; reflexivity.
      * unfold getOperand in HA, HB.
        destruct (getOperands (Val N)); discriminate.
    + rewrite (Select_special_short NDEBUG N' s Hsp' H1).
      rewrite (Select_special_short NDEBUG N s Hsp HB).
      reflexivity.
Qed.

(** X12. Selection is stable on what the special-op lowering builds:
    when the machine opcodes lie in the custom range, the consumer that
    [Select] returns and the producer it reads are both custom nodes, so
    selecting either of them again returns [NULL] and makes no library
    call. *)
Theorem Select_lowered_is_selected
        (NDEBUG : bool) (N A B : SDOperand) (s : ISelState) :
  isSpecialOp (getOpcode N) = true ->
  getOperand (Val N) 0 = Some A ->
  getOperand (Val N) 1 = Some B ->
  (forall m,
      In m [Mips.MULT; Mips.MULTu; Mips.DIV; Mips.DIVu;
            Mips.MFHI; Mips.MFLO] ->
      0 <= m /\ ISD.BUILTIN_OP_END + m < MipsISD.FIRST_NUMBER) ->
  exists R P s1,
    Select SelectCode NDEBUG N s = Some (Some R, s1)
    /\ getOperand R 0 = Some P
    /\ (forall SelectCode' t,
          exists t',
            Select SelectCode' NDEBUG (MkSDOperand R 0) t = Some (None, t')
            /\ Calls t' = Calls t)
    /\ (forall SelectCode' t,
          exists t',
            Select SelectCode' NDEBUG P t = Some (None, t')
            /\ Calls t' = Calls t).
Proof.
  intros Hsp HA HB Hrange.
  destruct (isSpecialOp_table _ Hsp) as (prod & cons & Hrow).
  assert (Hin : In prod [Mips.MULT; Mips.MULTu; Mips.DIV; Mips.DIVu;
                         Mips.MFHI; Mips.MFLO]
                /\ In cons [Mips.MULT; Mips.MULTu; Mips.DIV; Mips.DIVu;
                            Mips.MFHI; Mips.MFLO]).
  { destruct Hrow; cbn; tauto. }
  destruct Hin as [Hprod Hcons].
  apply Hrange in Hprod, Hcons.
  assert (Hcustom : forall Opc VT Ops SelectCode' t,
             0 <= Opc /\ ISD.BUILTIN_OP_END + Opc < MipsISD.FIRST_NUMBER ->
             exists t',
               Select SelectCode' NDEBUG
                      (MkSDOperand (TargetNode Opc VT Ops) 0) t
               = Some (None, t')
               /\ Calls t' = Calls t).
  { intros Opc VT Ops SelectCode' t [Hlo Hhi].
    rewrite Select_custom.
    - eexists. split; [reflexivity|]. destruct NDEBUG; reflexivity.
    - unfold isCustomNode, getOpcode, TargetNode. cbn.
      apply andb_true_iff. split.
      + apply Z.leb_le. lia.
      + apply Z.ltb_lt. lia. }
  exists (chain prod cons A B), (MkSDOperand (TargetNode prod MVT.Flag [A; B]) 0).
  eexists. split.
  { apply (Select_special SelectCode NDEBUG N A B s prod cons Hrow HA HB). }
  split; [reflexivity|]. split.
  - intros SelectCode' t. apply Hcustom. exact Hcons.
  - intros SelectCode' t. apply Hcustom. exact Hprod.
Qed.

End SelectMoreEnum.

(* ================================================================== *)
(** ** Properties of getI32Imm                                          *)
(* ================================================================== *)

(** Reading back as a signed 32-bit number what was converted to
    [unsigned] gives the number again. *)
Lemma sext_wrap32 (i : Z) :
  - 2 ^ 31 <= i < 2 ^ 31 -> sext 32 (wrap32 i) = i.
Proof.
  intros Hi. unfold sext, wrap32. rewrite Zmod_mod.
  change (32 - 1) with 31.
  pose proof (Z.mod_pos_bound i (2 ^ 32) ltac:(lia)) as Hb.
  pose proof (Z.div_mod i (2 ^ 32) ltac:(lia)) as Hdm.
  destruct (i mod 2 ^ 32 <? 2 ^ 31) eqn:Hlt.
  - apply Z.ltb_lt in Hlt. lia.
  - apply Z.ltb_ge in Hlt. lia.
Qed.

Section Imm.
Context `{NT : ISD.NodeType} {E : ISD.Enum}.

(** X14. An immediate built by [getI32Imm] from a number of the signed
    16-bit range is folded when it is the second operand of an [ADD]
    whose first operand is not a frame index: the base is the first
    operand and the offset is that very constant. *)
Theorem SelectAddr_folds_getI32Imm
        (Op Addr O0 B0 R : SDOperand) (Imm : Z) :
  - 32768 <= Imm <= 32767 ->
  getOpcode Addr = ISD.ADD ->
  getOperand (Val Addr) 0 = Some R ->
  getOperand (Val Addr) 1 = Some (getI32Imm Imm) ->
  isa_FrameIndexSDNode R = false ->
  exists r,
    SelectAddr Op Addr O0 B0 = Some r
    /\ ret r = true /\ Base r = R /\ Offset r = getI32Imm Imm.
Proof.
  intros Hrange Hadd H0 H1 HR.
  assert (Hc : isa_ConstantSDNode (getI32Imm Imm) = true).
  { unfold isa_ConstantSDNode, getI32Imm. cbn.
    rewrite Z.eqb_refl. apply orb_true_r. }
  assert (Hp : Predicate_immSExt16 (Val (getI32Imm Imm)) = Some true).
  { unfold Predicate_immSExt16, getI32Imm. cbn.
    fold (wrap32 Imm). rewrite sext_wrap32 by lia.
    f_equal. apply andb_true_iff. split.
    - apply Z.leb_le. lia.
    - apply Z.ltb_lt. lia. }
  rewrite (SelectAddr_add_constant Op Addr O0 B0 R (getI32Imm Imm)
             (wrap32 Imm) true Hadd H0 H1 Hc eq_refl Hp).
  unfold dyn_cast_FrameIndexSDNode. rewrite HR.
  eexists. repeat split.
Qed.

End Imm.

(* ================================================================== *)
(** ** The statements at concrete nodes                                 *)
(* ================================================================== *)

Import Sample Sample2.

Local Abbreviation SelectAddr' := (@SelectAddr isd).
Local Abbreviation Select' := (@Select isd mips mipsisd noMatch).
Local Abbreviation TFI k := (@getTargetFrameIndex isd k MVT.i32).
Local Abbreviation TC v := (@getTargetConstant isd v MVT.i32).

(** The addressing instances of the spec's section 8. *)
Example addr_frame_slot :
  option_map (fun r => (ret r, Base r, Offset r))
             (SelectAddr' (reg 0) (frameIndex 2) (reg 98) (reg 99))
  = Some (true, TFI 2, TC 0).
Proof. reflexivity. Qed.

(** The same call read by position, under the names of the class
    declaration. *)
Example addr_frame_slot_by_position :
  option_map (fun r => (declared_Base r, declared_Offset r))
             (SelectAddr' (reg 0) (frameIndex 2) (reg 98) (reg 99))
  = Some (TC 0, TFI 2).
Proof. reflexivity. Qed.

Example addr_frame_slot_plus_100 :
  option_map (fun r => (ret r, Base r, Offset r))
             (SelectAddr' (reg 0) (add (frameIndex 2) (constant 100))
                          (reg 98) (reg 99))
  = Some (true, TFI 2, TC 100).
Proof. reflexivity. Qed.

Example addr_reg_plus_70000 :
  option_map (fun r => (ret r, Base r, Offset r))
             (SelectAddr' (reg 0) (add (reg 1) (constant 70000))
                          (reg 98) (reg 99))
  = Some (true, add (reg 1) (constant 70000), TC 0).
Proof. reflexivity. Qed.

Example addr_symbolic :
  option_map ret (SelectAddr' (reg 0) (targetGlobalAddress "g")
                              (reg 98) (reg 99))
  = Some false.
Proof. reflexivity. Qed.

Example addr_chained_add :
  option_map (fun r => (ret r, Base r, Offset r))
             (SelectAddr' (reg 0)
                          (add (add (reg 1) (constant 4)) (constant 8))
                          (reg 98) (reg 99))
  = Some (true, add (reg 1) (constant 4), TC 8).
Proof. reflexivity. Qed.

Lemma SelectAddr_frame_index_rule_witness :
  exists r,
    SelectAddr' (reg 0) (frameIndex 2) (reg 98) (reg 99) = Some r
    /\ ret r = true
    /\ Base r = TFI 2 /\ Offset r = TC 0
    /\ arg3 r = TC 0 /\ arg4 r = TFI 2.
Proof.
  apply (@SelectAddr_frame_index_rule isd
           (reg 0) (frameIndex 2) (reg 98) (reg 99) 2); reflexivity.
Defined.

(** Read in the order of the names of the class declaration (third
    parameter [Base], fourth [Offset]) the outputs for the frame index 2
    are not (target frame index 2, constant 0). *)
Lemma SelectAddr_declared_order_counterexample :
  ~ (exists r,
        SelectAddr' (reg 0) (frameIndex 2) (reg 98) (reg 99) = Some r
        /\ ret r = true
        /\ declared_Base r = TFI 2
        /\ declared_Offset r = TC 0).
Proof.
  intros (r & Hrun & _ & Hbase & _).
  cbn in Hrun. injection Hrun as <-.
  cbn in Hbase. discriminate Hbase.
Qed.

Lemma SelectAddr_false_iff_symbolic_witness :
  wf_addr (NT := isd) (add (frameIndex 2) (constant 100)) = true
  /\ exists r,
       SelectAddr' (reg 0) (add (frameIndex 2) (constant 100))
                   (reg 98) (reg 99) = Some r
       /\ ret r = true.
Proof.
  split; [reflexivity|].
  apply (proj2 (@SelectAddr_false_iff_symbolic isd sample_enum
                  (reg 0) (add (frameIndex 2) (constant 100))
                  (reg 98) (reg 99))).
  - reflexivity.
  - cbn. lia.
  - cbn. lia.
Defined.

Lemma SelectAddr_add_constant_rule_witness :
  exists r,
    SelectAddr' (reg 0) (add (frameIndex 2) (constant 100))
                (reg 98) (reg 99) = Some r
    /\ ret r = true /\ Offset r = TC 100 /\ Base r = TFI 2.
Proof.
  apply (proj1 (proj1 (@SelectAddr_add_constant_rule isd sample_enum
                         (reg 0) (add (frameIndex 2) (constant 100))
                         (reg 98) (reg 99) (frameIndex 2) (constant 100) 100
                         eq_refl eq_refl eq_refl eq_refl eq_refl)
                      eq_refl) 2); reflexivity.
Defined.

Lemma SelectAddr_constant_first_not_folded_witness :
  exists r,
    SelectAddr' (reg 0) (add (constant 4) (reg 1)) (reg 98) (reg 99) = Some r
    /\ ret r = true
    /\ Base r = add (constant 4) (reg 1) /\ Offset r = TC 0.
Proof.
  apply (@SelectAddr_constant_first_not_folded isd sample_enum
           (reg 0) (add (constant 4) (reg 1)) (reg 98) (reg 99)
           (constant 4) (reg 1)); reflexivity.
Defined.

Lemma Select_special_op_table_witness :
  lowers_to (NT := isd) (MO := mips) (MN := mipsisd) noMatch false
            (binop (@ISD.MULHU isd) (reg 1) (reg 2)) s0
            (@Mips.MULTu mips) (@Mips.MFHI mips) (reg 1) (reg 2).
Proof.
  apply (proj1 (proj2 (@Select_special_op_table isd mips mipsisd sample_enum
                         noMatch false
                         (binop (@ISD.MULHU isd) (reg 1) (reg 2))
                         (reg 1) (reg 2) s0 eq_refl eq_refl))).
  reflexivity.
Defined.

Lemma Select_custom_unchanged_witness :
  exists s',
    Select' false (binop 160 (reg 1) (reg 2)) s0 = Some (None, s')
    /\ Calls s' = Calls s0
    /\ (false = true -> s' = s0).
Proof.
  apply (proj1 (@Select_custom_unchanged isd mips mipsisd noMatch false
                  (binop 160 (reg 1) (reg 2)) s0 ltac:(cbn; lia))).
Defined.

Lemma Select_queues_operands_first_witness :
  exists R s' prod later,
    Select' false (binop (@ISD.SDIV isd) (reg 1) (reg 2)) s0
    = Some (Some R, s')
    /\ Calls s' = Calls s0
                  ++ CallAddToISelQueue (reg 1) :: CallAddToISelQueue (reg 2)
                  :: CallGetTargetNode prod MVT.Flag [reg 1; reg 2] :: later
    /\ queued_before_use [reg 1; reg 2]
         (CallAddToISelQueue (reg 1) :: CallAddToISelQueue (reg 2)
          :: CallGetTargetNode prod MVT.Flag [reg 1; reg 2] :: later).
Proof.
  apply (@Select_queues_operands_first isd mips mipsisd sample_enum
           noMatch false (binop (@ISD.SDIV isd) (reg 1) (reg 2))
           (reg 1) (reg 2) s0); reflexivity.
Defined.

Lemma Select_flag_edge_witness :
  exists Producer Consumer s',
    Select' false (binop (@ISD.UREM isd) (reg 1) (reg 2)) s0
    = Some (Some Consumer, s')
    /\ getValueTypes Producer = [MVT.Flag]
    /\ getOperands Producer = [reg 1; reg 2]
    /\ getOperands Consumer = [MkSDOperand Producer 0]
    /\ getValueTypes Consumer = [MVT.i32].
Proof.
  apply (@Select_flag_edge isd mips mipsisd sample_enum
           noMatch false (binop (@ISD.UREM isd) (reg 1) (reg 2))
           (reg 1) (reg 2) s0); reflexivity.
Defined.

Lemma Select_Indent_effect_witness :
  exists R s',
    Select' false (binop (@ISD.MULHS isd) (reg 1) (reg 2)) s0
    = Some (Some R, s')
    /\ Indent s' = wrap32 (Indent s0 + 2)
    /\ (Indent s0 + 2 < 2 ^ 32 -> Indent s' = Indent s0 + 2).
Proof.
  apply (proj1 (@Select_Indent_effect isd mips mipsisd sample_enum
                  noMatch (binop (@ISD.MULHS isd) (reg 1) (reg 2)) s0
                  ltac:(cbn; lia) (fun M t => eq_refl))
               eq_refl (reg 1) (reg 2) eq_refl eq_refl).
Defined.

(** The sample [selectRoot] returns the same node whatever the debug
    state. *)
Lemma sample_Select_state_free (N : SDOperand) (d d' : ISelState) :
  option_map fst (Select' true N d) = option_map fst (Select' true N d').
Proof.
  unfold Select, debug, Bind, Ret, Assert, getTargetNode,
    AddToISelQueue, call, noMatch.
  repeat match goal with
         | |- context [if ?b then _ else _] => destruct b
         | |- context [match getOperand ?n ?i with _ => _ end] =>
             destruct (getOperand n i)
         end; reflexivity.
Qed.

Lemma sample_selectRoot_independent : diag_independent selectRoot.
Proof.
  intros R G d d'. unfold selectRoot. cbn [fst snd].
  pose proof (sample_Select_state_free R d d') as Hfree.
  destruct (Select noMatch true R d) as [[[New|] d1]|];
    destruct (Select noMatch true R d') as [[[New'|] d1']|];
    cbn in Hfree; try discriminate Hfree; cbn; try (split; reflexivity).
  injection Hfree as <-. split; reflexivity.
Qed.

Lemma InstructionSelectBasicBlock_steps_witness :
  let st := {| SD := {| Root := binop (@ISD.SDIV isd) (reg 1) (reg 2);
                        AllNodes := [] |};
               BB := @nil SDNode;
               ISelSt := s0 |} in
  let run := InstructionSelectBasicBlock (list SDNode) selectRoot
               removeDeadNodes scheduleAndEmit in
  SD (run false st) = SD (run true st)
  /\ BB (run false st) = BB (run true st).
Proof.
  exact (proj2 (proj2 (proj2 (proj2 (proj2
    (@InstructionSelectBasicBlock_steps (list SDNode) selectRoot
       removeDeadNodes scheduleAndEmit false
       {| SD := {| Root := binop (@ISD.SDIV isd) (reg 1) (reg 2);
                   AllNodes := [] |};
          BB := @nil SDNode;
          ISelSt := s0 |})))))
    sample_selectRoot_independent).
Defined.

(* ================================================================== *)
(** ** The further properties at concrete nodes                          *)
(* ================================================================== *)

Lemma SelectAddr_outputs_witness :
  (arg3 {| ret := false; arg3 := reg 98; arg4 := reg 99 |} = reg 98
   /\ arg4 {| ret := false; arg3 := reg 98; arg4 := reg 99 |} = reg 99)
  /\ SelectAddr' (reg 1) (add (frameIndex 2) (constant 100)) (reg 3) (reg 4)
     = Some {| ret := true; arg3 := TC 100; arg4 := TFI 2 |}.
Proof.
  split.
  - apply (proj1 (@SelectAddr_outputs isd (reg 0) (reg 1)
                    (targetGlobalAddress "g")
                    (reg 98) (reg 99) (reg 3) (reg 4) _ eq_refl)).
    reflexivity.
  - apply (proj2 (@SelectAddr_outputs isd (reg 0) (reg 1)
                    (add (frameIndex 2) (constant 100))
                    (reg 98) (reg 99) (reg 3) (reg 4) _ eq_refl)).
    reflexivity.
Defined.

Lemma SelectAddr_offset_shape_witness :
  exists v,
    Offset {| ret := true; arg3 := TC 100; arg4 := TFI 2 |} = TC v
    /\ (v = 0
        \/ (getOpcode (add (frameIndex 2) (constant 100)) = @ISD.ADD isd
            /\ exists Op1,
                getOperand (Val (add (frameIndex 2) (constant 100))) 1
                = Some Op1
                /\ isa_ConstantSDNode (NT := isd) Op1 = true
                /\ getValue (Val Op1) = Some v
                /\ Predicate_immSExt16 (Val Op1) = Some true)).
Proof.
  apply (@SelectAddr_offset_shape isd (reg 0)
           (add (frameIndex 2) (constant 100)) (reg 98) (reg 99));
    reflexivity.
Defined.

Lemma SelectAddr_offset_fits_simm16_witness :
  exists v,
    Offset {| ret := true; arg3 := TC 4294967295; arg4 := reg 1 |} = TC v
    /\ - 32768 <= sext 32 v <= 32767.
Proof.
  apply (@SelectAddr_offset_fits_simm16 isd (reg 0)
           (add (reg 1) (constant 4294967295)) (reg 98) (reg 99));
    reflexivity.
Defined.

Lemma SelectAddr_base_never_FrameIndex_witness :
  getOpcode (Base {| ret := true; arg3 := TC 100; arg4 := TFI 2 |})
  <> @ISD.FrameIndex isd.
Proof.
  apply (@SelectAddr_base_never_FrameIndex isd sample_enum (reg 0)
           (add (frameIndex 2) (constant 100)) (reg 98) (reg 99));
    reflexivity.
Defined.

Lemma SelectAddr_frame_index_idempotent_witness :
  exists r,
    SelectAddr' (reg 0) (frameIndex 2) (reg 98) (reg 99) = Some r
    /\ forall Op' O1 B1, SelectAddr' Op' (Base r) O1 B1 = Some r.
Proof.
  apply (@SelectAddr_frame_index_idempotent isd (reg 0) (frameIndex 2)
           (reg 98) (reg 99) 2); reflexivity.
Defined.

Lemma SelectAddr_default_rule_witness :
  exists r,
    SelectAddr' (reg 0) (binop 41 (reg 1) (constant 8)) (reg 98) (reg 99)
    = Some r
    /\ ret r = true
    /\ Base r = binop 41 (reg 1) (constant 8)
    /\ Offset r = TC 0.
Proof.
  apply (@SelectAddr_default_rule isd (reg 0)
           (binop 41 (reg 1) (constant 8)) (reg 98) (reg 99)).
  - reflexivity.
  - cbn. lia.
  - cbn. lia.
  - cbn. lia.
Defined.

Lemma SelectAddr_add_needs_two_operands_witness :
  SelectAddr' (reg 0)
    (MkSDOperand (MkSDNode (@ISD.ADD isd) [MVT.i32] [reg 1] NoPayload) 0)
    (reg 98) (reg 99)
  = None.
Proof.
  apply (@SelectAddr_add_needs_two_operands isd sample_enum (reg 0)
           (MkSDOperand
              (MkSDNode (@ISD.ADD isd) [MVT.i32] [reg 1] NoPayload) 0)
           (reg 98) (reg 99)).
  - reflexivity.
  - cbn. lia.
Defined.

Lemma Select_special_defined_iff_witness :
  ((exists r, Select' false (binop (@ISD.SREM isd) (reg 1) (reg 2)) s0
              = Some r)
   <-> (2 <= List.length
               (getOperands
                  (Val (binop (@ISD.SREM isd) (reg 1) (reg 2)))))%nat)
  /\ option_map (fun x => (fst x, Calls (snd x)))
       (Select' false
          (MkSDOperand
             (MkSDNode (@ISD.SREM isd) [MVT.i64] [reg 1; reg 2; reg 3]
                       (Symbol "x")) 1) s0)
     = option_map (fun x => (fst x, Calls (snd x)))
         (Select' false (binop (@ISD.SREM isd) (reg 1) (reg 2)) s0).
Proof.
  pose proof (@Select_special_defined_iff isd mips mipsisd sample_enum
                noMatch false (binop (@ISD.SREM isd) (reg 1) (reg 2)) s0
                eq_refl) as [Hiff Hsame].
  split; [exact Hiff|].
  apply Hsame; reflexivity.
Defined.

Lemma Select_special_ignores_matcher_witness :
  Select' false (binop (@ISD.UDIV isd) (reg 1) (reg 2)) s0
  = @Select isd mips mipsisd
      (fun N s => (Some (Val N), s)) false
      (binop (@ISD.UDIV isd) (reg 1) (reg 2)) s0.
Proof.
  apply (@Select_special_ignores_matcher isd mips mipsisd noMatch
           (fun N s => (Some (Val N), s)) false
           (binop (@ISD.UDIV isd) (reg 1) (reg 2)) s0).
  reflexivity.
Defined.

Lemma Select_tracing_no_effect_witness :
  option_map (fun x => (fst x, Calls (snd x)))
             (Select' false (add (reg 1) (reg 2)) s0)
  = option_map (fun x => (fst x, Calls (snd x)))
               (Select' true (add (reg 1) (reg 2)) s0).
Proof.
  apply (@Select_tracing_no_effect isd mips mipsisd noMatch
           (add (reg 1) (reg 2)) s0).
  intros M t t' Hcalls. split; [reflexivity|exact Hcalls].
Defined.

Lemma Select_fallback_passthrough_witness :
  Select' true (add (reg 1) (reg 2)) s0
  = Some (noMatch (add (reg 1) (reg 2)) s0).
Proof.
  apply (proj2 (@Select_fallback_passthrough isd mips mipsisd noMatch true
                  (add (reg 1) (reg 2)) s0 eq_refl eq_refl)).
  reflexivity.
Defined.

Lemma Select_lowered_is_selected_witness :
  exists R P s1,
    Select' false (binop (@ISD.MULHS isd) (reg 1) (reg 2)) s0
    = Some (Some R, s1)
    /\ getOperand R 0 = Some P
    /\ (forall SelectCode' t,
          exists t',
            @Select isd mips mipsisd SelectCode' false (MkSDOperand R 0) t
            = Some (None, t')
            /\ Calls t' = Calls t)
    /\ (forall SelectCode' t,
          exists t',
            @Select isd mips mipsisd SelectCode' false P t = Some (None, t')
            /\ Calls t' = Calls t).
Proof.
  apply (@Select_lowered_is_selected isd mips mipsisd sample_enum noMatch
           false (binop (@ISD.MULHS isd) (reg 1) (reg 2)) (reg 1) (reg 2) s0).
  - reflexivity.
  - reflexivity.
  - reflexivity.
  - intros m Hin. cbn in Hin.
    destruct Hin as [<- | [<- | [<- | [<- | [<- | [<- | []]]]]]];
      cbn; lia.
Defined.

Lemma SelectAddr_folds_getI32Imm_witness :
  exists r,
    SelectAddr' (reg 0) (add (reg 1) (@getI32Imm isd (-4)))
                (reg 98) (reg 99) = Some r
    /\ ret r = true /\ Base r = reg 1 /\ Offset r = @getI32Imm isd (-4).
Proof.
  apply (@SelectAddr_folds_getI32Imm isd sample_enum (reg 0)
           (add (reg 1) (@getI32Imm isd (-4))) (reg 98) (reg 99)
           (reg 1) (-4)).
  - lia.
  - reflexivity.
  - reflexivity.
  - reflexivity.
  - reflexivity.
Defined.
